(** * Host maintenance scripts: backup.py and updateLinux.py

    A shallow embedding of the two scripts of the repository,

      - [linux/backup/backup.py]           (module [Backup]),
      - [linux/updateLinux/updateLinux.py] (module [UpdateLinux]),

    together with the Python primitives they rely on (module [Py]).

    Python values are embedded as follows.  A [str] is a [string] whose
    characters are code points below 256.  An [int] is a [Z].  A finite
    [float] is the rational it denotes ([Q]); comparisons between Python
    numbers are exact, so they are comparisons of rationals.  A [dict]
    with string keys is a [gmap string _].  Code that may raise returns a
    [result]; code that touches the file system, the logger or a
    subprocess runs in a state-and-exception monad over an explicit
    world. *)

From Stdlib Require Import ZArith QArith String Ascii List Lia.
From Stdlib Require Import Sorted Permutation.
From stdpp Require Import base option list strings pretty gmap.

Local Open Scope string_scope.
Local Open Scope Z_scope.

(** ** Python primitives *)

Module Py.

(** Exception classes that the two scripts raise or can receive from the
    library calls they make. *)
Inductive exn_class :=
  | ValueError
  | RuntimeError
  | TypeError
  | AttributeError
  | IndexError
  | KeyError
  | FileNotFoundError
  | IsADirectoryError
  | PermissionError
  | UnicodeDecodeError
  | OSError
  | YAMLError.

(** An exception: its class and [str(e)].  The scripts write their
    messages in Russian; the texts are rendered in English here. *)
Record exn := Exn { exn_cls : exn_class; exn_str : string }.

Inductive result (A : Type) :=
  | Ok (a : A)
  | Raise (e : exn).
Arguments Ok {A} a.
Arguments Raise {A} e.

Definition is_ok {A} (r : result A) : bool :=
  match r with Ok _ => true | Raise _ => false end.

(** Scalars as [yaml.safe_load] produces them.  A nested container (a
    list or a mapping) is kept opaque: [POther nonempty] records only
    whether it has an element, which is all that [bool(v)] looks at. *)
Inductive pyval :=
  | PNone
  | PBool (b : bool)
  | PInt (z : Z)
  | PFloat (q : Q)
  | PStr (s : string)
  | POther (nonempty : bool).

(** [bool(v)] *)
Definition truthy (v : pyval) : bool :=
  match v with
  | PNone => false
  | PBool b => b
  | PInt z => negb (z =? 0)
  | PFloat q => negb (Qeq_bool q 0)
  | PStr s => negb (String.eqb s EmptyString)
  | POther nonempty => nonempty
  end.

(** *** State and exceptions *)

(** A computation over a world [W]: it returns or raises, and leaves a
    world behind in both cases. *)
Definition M (W A : Type) : Type := W -> result A * W.

Section Monad.
Context {W : Type}.

Definition ret {A} (a : A) : M W A := fun w => (Ok a, w).

Definition raise {A} (e : exn) : M W A := fun w => (Raise e, w).

Definition bind {A B} (c : M W A) (k : A -> M W B) : M W B :=
  fun w =>
    match c w with
    | (Ok a, w') => k a w'
    | (Raise e, w') => (Raise e, w')
    end.

(** [try: c  except Exception as e: h e] *)
Definition try_catch {A} (c : M W A) (h : exn -> M W A) : M W A :=
  fun w =>
    match c w with
    | (Ok a, w') => (Ok a, w')
    | (Raise e, w') => h e w'
    end.

Definition lift {A} (r : result A) : M W A := fun w => (r, w).

(** [for x in l: body x] *)
Fixpoint for_each {A} (l : list A) (body : A -> M W unit) : M W unit :=
  match l with
  | [] => ret tt
  | x :: l' => bind (body x) (fun _ => for_each l' body)
  end.

(** [[f x for x in l]] with an [f] that may raise. *)
Fixpoint map_m {A B} (f : A -> M W B) (l : list A) : M W (list B) :=
  match l with
  | [] => ret []
  | x :: l' =>
      bind (f x) (fun y => bind (map_m f l') (fun ys => ret (y :: ys)))
  end.
End Monad.

Notation "x <- c ;; k" := (bind c (fun x => k))
  (at level 100, c at next level, right associativity).
Notation "c ;; k" := (bind c (fun _ => k))
  (at level 100, right associativity).

(** *** Strings *)

(** [s.startswith(p)] *)
Definition startswith (s p : string) : bool := String.prefix p s.

(** [s.endswith(suf)] *)
Definition endswith (s suf : string) : bool :=
  let n := String.length s in
  let k := String.length suf in
  if (n <? k)%nat then false
  else String.eqb (String.substring (n - k) k s) suf.

(** [sub in s] for strings: some suffix of [s] starts with [sub]. *)
Fixpoint str_contains (s sub : string) : bool :=
  String.prefix sub s ||
  match s with
  | EmptyString => false
  | String _ s' => str_contains s' sub
  end.

Definition code (c : ascii) : nat := nat_of_ascii c.

(** [c.isspace()] for a code point below 256. *)
Definition isspace (c : ascii) : bool :=
  let n := code c in
  ((9 <=? n) && (n <=? 13) || (28 <=? n) && (n <=? 32)
   || (n =? 133) || (n =? 160))%nat.

Fixpoint lstrip_by (p : ascii -> bool) (s : string) : string :=
  match s with
  | EmptyString => EmptyString
  | String c s' => if p c then lstrip_by p s' else s
  end.

(** Drops the longest suffix whose characters all satisfy [p]. *)
Fixpoint rstrip_by (p : ascii -> bool) (s : string) : string :=
  match s with
  | EmptyString => EmptyString
  | String c s' =>
      match rstrip_by p s' with
      | EmptyString => if p c then EmptyString else String c EmptyString
      | r => String c r
      end
  end.

Definition strip_by (p : ascii -> bool) (s : string) : string :=
  rstrip_by p (lstrip_by p s).

(** [s.strip()] *)
Definition strip (s : string) : string := strip_by isspace s.

(** [s.strip(chars)] with a one-character [chars]. *)
Definition strip_char (ch : ascii) (s : string) : string :=
  strip_by (Ascii.eqb ch) s.

(** [s.split(sep)] with a one-character separator: always at least one
    field. *)
Fixpoint split (sep : ascii) (s : string) : list string :=
  match s with
  | EmptyString => [EmptyString]
  | String c s' =>
      if Ascii.eqb c sep then EmptyString :: split sep s'
      else match split sep s' with
           | f :: fs => String c f :: fs
           | [] => [String c EmptyString]
           end
  end.

(** [l[i]] for a non-negative literal index. *)
Definition index {A} (l : list A) (i : nat) : result A :=
  match l !! i with
  | Some x => Ok x
  | None => Raise (Exn IndexError "list index out of range")
  end.

(** [c.lower()] for a code point below 256: the ASCII capitals and the
    Latin-1 capitals (U+00C0..U+00DE without the multiplication sign). *)
Definition lower_char (c : ascii) : ascii :=
  let n := code c in
  if ((65 <=? n) && (n <=? 90)
      || (192 <=? n) && (n <=? 222) && negb (n =? 215))%nat
  then ascii_of_nat (n + 32) else c.

(** [s.lower()] *)
Fixpoint lower (s : string) : string :=
  match s with
  | EmptyString => EmptyString
  | String c s' => String (lower_char c) (lower s')
  end.

(** Every character of [s] satisfies [p]. *)
Fixpoint all_chars (p : ascii -> bool) (s : string) : bool :=
  match s with
  | EmptyString => true
  | String c s' => p c && all_chars p s'
  end.

Definition LF : ascii := ascii_of_nat 10.
Definition CR : ascii := ascii_of_nat 13.
Definition QUOTE : ascii := ascii_of_nat 34.

(** Iterating over a text file opened with the default universal
    newlines: a line ends at LF, CR LF or a lone CR, each of which is
    handed over as LF; the last line may lack a terminator.  [cur] is
    the current line, reversed. *)
Fixpoint lines_from (cur : string) (s : string) : list string :=
  let flush := String.rev (String LF cur) in
  match s with
  | EmptyString =>
      match cur with EmptyString => [] | _ => [String.rev cur] end
  | String c s' =>
      if Ascii.eqb c LF then flush :: lines_from EmptyString s'
      else if Ascii.eqb c CR then
        match s' with
        | String c' s'' =>
            if Ascii.eqb c' LF then flush :: lines_from EmptyString s''
            else flush :: lines_from EmptyString s'
        | EmptyString => [flush]
        end
      else lines_from (String c cur) s'
  end.

Definition file_lines (content : string) : list string :=
  lines_from EmptyString content.

(** *** Paths *)

Definition SLASH : ascii := "/"%char.

(** [os.path.join(a, b)] on POSIX. *)
Definition path_join (a b : string) : string :=
  if startswith b "/" then b
  else if String.eqb a EmptyString || endswith a "/" then a ++ b
  else a ++ "/" ++ b.

(** [os.path.basename(p)]: what follows the last slash. *)
Definition basename (p : string) : string :=
  List.last (split SLASH p) EmptyString.

(** [os.path.dirname(p)]: what precedes the last slash, without the
    slashes that end it, unless it consists of slashes only. *)
Definition dirname (p : string) : string :=
  let head :=
    String.substring 0 (String.length p - String.length (basename p)) p in
  if all_chars (Ascii.eqb SLASH) head then head
  else rstrip_by (Ascii.eqb SLASH) head.

(** [c.upper()] for an ASCII character. *)
Definition upper_char (c : ascii) : ascii :=
  let n := code c in
  if ((97 <=? n) && (n <=? 122))%nat then ascii_of_nat (n - 32) else c.

(** [s.upper()], exact on ASCII strings.  It is only compared with
    ASCII names that have no doubled S: among the code points from 128
    to 255 the sharp s alone has ASCII capitals, which are SS, so on
    every string the comparison comes out as in Python. *)
Fixpoint upper (s : string) : string :=
  match s with
  | EmptyString => EmptyString
  | String c s' => String (upper_char c) (upper s')
  end.

(** *** Lists *)

(** [l[:stop]]: a negative [stop] counts from the end, and the result
    is clamped to the list. *)
Definition slice_to {A} (l : list A) (stop : Z) : list A :=
  let n := Z.of_nat (length l) in
  let stop' := if stop <? 0 then Z.max 0 (n + stop) else Z.min stop n in
  take (Z.to_nat stop') l.

(** Stable insertion: [x] goes before the first element whose key is
    not smaller. *)
Fixpoint insert_by {A} (key : A -> Z) (x : A) (l : list A) : list A :=
  match l with
  | [] => [x]
  | y :: l' =>
      if key x <=? key y then x :: l else y :: insert_by key x l'
  end.

(** [sorted(l, key=key)] for keys already computed: ascending and
    stable (elements with equal keys keep their order in [l]).  The
    stable sort of a list is unique, so any stable algorithm denotes
    the function that Python's sort computes. *)
Fixpoint sort_by {A} (key : A -> Z) (l : list A) : list A :=
  match l with
  | [] => []
  | x :: l' => insert_by key x (sort_by key l')
  end.

(** Ascending keys, from the front to the back of the list. *)
Definition ascending {A} (key : A -> Z) (l : list A) : Prop :=
  StronglySorted (fun a b => key a <= key b) l.

End Py.

(** ** The backup script *)

Module Backup.
Import Py.

(** *** The world of the script *)

(** What a directory entry is for the two calls that look at it:
    [os.path.getmtime] follows links and fails on a link whose target is
    gone; [os.remove] refuses a directory. *)
Inductive kind := RegFile | SubDir | BrokenLink.

(** A directory entry.  [mtime] stands for the float that
    [os.path.getmtime] returns; only its order matters. *)
Record entry := Entry { name : string; kind_of : kind; mtime : Z }.

Inductive level := INFO | ERROR.

(** The records handed to the logger, one constructor per f-string of
    the script, with the interpolated values as arguments. *)
Inductive message :=
  | MsgBackupStart
  | MsgRemovedOld (base : string)
  | MsgCleanupError (e : exn)
  | MsgNoSpace (free_gb : Q) (required : pyval)
  | MsgCreatedDir (path : string)
  | MsgCreating (path : string)
  | MsgBackupDone (path : string)
  | MsgCritical (e : exn).

(** A parsed YAML document.  The keys of a mapping are strings: a key
    of another type is neither a required field nor a default. *)
Inductive document :=
  | DocScalar (v : pyval)
  | DocList (l : list pyval)
  | DocDict (d : gmap string pyval).

Record world := World {
  (** the directories that exist, each with its listing in the order in
      which [os.listdir] reports it *)
  dirs : gmap string (list entry);
  (** [shutil.disk_usage(...).free] of the one volume *)
  free_bytes : Z;
  (** the time stamp a file written now receives *)
  clock : Z;
  (** [datetime.now().strftime("%Y%m%d_%H%M%S")] *)
  timestamp : string;
  (** whether [shutil.make_archive] fails *)
  archiver_fails : bool;
  (** whether a failing [shutil.make_archive] leaves behind the file it
      had begun to write *)
  partial_archive : bool;
  (** where [os.listdir] reports a name that is new to a directory: the
      index it takes in the listing *)
  slot : string -> nat;
  (** [open] followed by [yaml.safe_load], per path *)
  yaml_at : string -> result document;
  (** whether an integer is an open file descriptor *)
  fd_open : Z -> bool;
  (** calls to the logger, oldest first *)
  logs : list (level * message);
  (** lines printed to the error stream, oldest first *)
  stderr : list string
}.

Definition with_dirs (d : gmap string (list entry)) (w : world) : world :=
  World d (free_bytes w) (clock w) (timestamp w) (archiver_fails w)
        (partial_archive w) (slot w) (yaml_at w) (fd_open w) (logs w)
        (stderr w).

Definition with_logs (l : list (level * message)) (w : world) : world :=
  World (dirs w) (free_bytes w) (clock w) (timestamp w) (archiver_fails w)
        (partial_archive w) (slot w) (yaml_at w) (fd_open w) l
        (stderr w).

Definition with_stderr (l : list string) (w : world) : world :=
  World (dirs w) (free_bytes w) (clock w) (timestamp w) (archiver_fails w)
        (partial_archive w) (slot w) (yaml_at w) (fd_open w) (logs w) l.

(** *** Logger and error stream *)

Definition log (lv : level) (m : message) : M world unit :=
  fun w => (Ok tt, with_logs (logs w ++ [(lv, m)]) w).

Definition logger_info := log INFO.
Definition logger_error := log ERROR.

Definition print_stderr (s : string) : M world unit :=
  fun w => (Ok tt, with_stderr (stderr w ++ [s]) w).

(** *** File system *)

Definition find_entry (l : list entry) (f : string) : option entry :=
  List.find (fun e => String.eqb (name e) f) l.

Definition drop_entry (f : string) (l : list entry) : list entry :=
  List.filter (fun e => negb (String.eqb (name e) f)) l.

(** [os.listdir(d)] *)
Definition listdir (d : string) : M world (list string) :=
  fun w =>
    match dirs w !! d with
    | Some l => (Ok (map name l), w)
    | None => (Raise (Exn FileNotFoundError d), w)
    end.

(** [os.path.getmtime(os.path.join(d, f))] for a name [f] of the
    listing of [d]. *)
Definition getmtime (d f : string) : M world Z :=
  fun w =>
    match dirs w !! d ≫= (fun l => find_entry l f) with
    | Some (Entry _ BrokenLink _) | None =>
        (Raise (Exn FileNotFoundError (path_join d f)), w)
    | Some e => (Ok (mtime e), w)
    end.

(** [os.remove(os.path.join(d, f))] for a name [f] of the listing of
    [d]. *)
Definition remove (d f : string) : M world unit :=
  fun w =>
    match dirs w !! d with
    | Some l =>
        match find_entry l f with
        | Some (Entry _ SubDir _) =>
            (Raise (Exn IsADirectoryError (path_join d f)), w)
        | Some _ => (Ok tt, with_dirs (<[d := drop_entry f l]> (dirs w)) w)
        | None => (Raise (Exn FileNotFoundError (path_join d f)), w)
        end
    | None => (Raise (Exn FileNotFoundError (path_join d f)), w)
    end.

(** Whether [p] names a directory of the world or an entry of one of
    them; a link whose target is gone does not exist.  A path is taken
    as it is spelled: the world lists a directory under the spelling
    the script uses for it. *)
Definition exists_in (ds : gmap string (list entry)) (p : string) : bool :=
  bool_decide (is_Some (ds !! p)) ||
  existsb
    (fun dl : string * list entry =>
       existsb
         (fun e =>
            String.eqb (path_join dl.1 (name e)) p &&
            match kind_of e with BrokenLink => false | _ => true end)
         dl.2)
    (map_to_list ds).

(** [os.path.exists(p)]: a string is a path, an integer a file
    descriptor; anything else is a [TypeError]. *)
Definition os_path_exists (p : pyval) : M world bool :=
  fun w =>
    match p with
    | PStr s => (Ok (exists_in (dirs w) s), w)
    | PInt z => (Ok (fd_open w z), w)
    | PBool b => (Ok (fd_open w (if b then 1 else 0)), w)
    | _ => (Raise (Exn TypeError "stat: path should be string"), w)
    end.

(** The listing [l] with the new entry [e] at index [k], or at the end
    when [l] is shorter. *)
Definition place (k : nat) (e : entry) (l : list entry) : list entry :=
  (take k l ++ e :: drop k l)%list.

(** [os.mkdir(p)] where it succeeds: [p] becomes an empty directory,
    and shows in the listing of its parent when the world knows that
    listing and the name is not in it. *)
Definition mkdir (p : string) (w : world) : world :=
  match dirs w !! p with
  | Some _ => w
  | None =>
      let ds := <[p := []]> (dirs w) in
      let e := Entry (basename p) SubDir (clock w) in
      with_dirs
        (match dirs w !! dirname p with
         | Some l =>
             match find_entry l (basename p) with
             | Some _ => ds
             | None => <[dirname p := place (slot w (basename p)) e l]> ds
             end
         | None => ds
         end) w
  end.

(** The recursion of [os.makedirs]: the parent first, when it has a
    name and does not exist, then the directory itself.  The root
    directory and the current one, which is the parent of a path
    without slash, always exist.  [fuel] bounds the depth; the length
    of the path is enough, since a parent is shorter than its child. *)
Fixpoint makedirs_rec (fuel : nat) (p : string) (w : world) : world :=
  let head := dirname p in
  mkdir p
    match fuel with
    | S fuel' =>
        if negb (all_chars (Ascii.eqb SLASH) head)
           && negb (String.eqb (basename p) EmptyString)
           && negb (exists_in (dirs w) head)
        then makedirs_rec fuel' head w
        else w
    | O => w
    end.

(** [os.makedirs(p, exist_ok=True)] for a path that ends in a name, as
    [os.path.join] builds it: the missing directories on the way to
    [p] are made, outermost first, then [p] itself.  The world has no
    permissions and the call is taken to succeed; a path is taken as
    it is spelled. *)
Definition makedirs (p : string) : M world unit :=
  fun w => (Ok tt, makedirs_rec (String.length p) p w).

(** [os.path.basename(p)] *)
Definition os_path_basename (p : pyval) : result string :=
  match p with
  | PStr s => Ok (basename s)
  | _ => Raise (Exn TypeError "expected str, bytes or os.PathLike object")
  end.

(** [os.path.join(a, b)] with a literal [b]. *)
Definition os_path_join (a : pyval) (b : string) : result string :=
  match a with
  | PStr s => Ok (path_join s b)
  | _ => Raise (Exn TypeError "expected str, bytes or os.PathLike object")
  end.

(** [shutil.make_archive(base_name, 'gztar', ...)]: a black box that
    either fails, for whatever reason ([archiver_fails]), or leaves
    [base_name + ".tar.gz"], here the file [fname] of directory [d],
    written now; a file of that name is overwritten.  A failure comes
    before the file is opened, and leaves nothing, or after
    ([partial_archive]), and leaves what was written. *)
Definition make_archive (d fname : string) : M world unit :=
  fun w =>
    let l := default [] (dirs w !! d) in
    let e := Entry fname RegFile (clock w) in
    let written :=
      with_dirs (<[d := place (slot w fname) e (drop_entry fname l)]> (dirs w))
                w in
    if archiver_fails w then
      (Raise (Exn OSError "make_archive"),
       if partial_archive w then written else w)
    else (Ok tt, written).

(** [shutil.disk_usage(p).free]: [os.statvfs] takes a path or an open
    descriptor. *)
Definition disk_usage_free (p : pyval) : M world Z :=
  let on_fd (w : world) (z : Z) :=
    if fd_open w z then (Ok (free_bytes w), w)
    else (Raise (Exn OSError "Bad file descriptor"), w) in
  fun w =>
    match p with
    | PStr s =>
        if exists_in (dirs w) s then (Ok (free_bytes w), w)
        else (Raise (Exn FileNotFoundError s), w)
    | PInt z => on_fd w z
    | PBool b => on_fd w (if b then 1 else 0)
    | _ => (Raise (Exn TypeError "statvfs: path should be string"), w)
    end.

(** *** Numbers *)

(** The rational a Python number denotes; [bool] is a subtype of
    [int]. *)
Definition num_of (v : pyval) : option Q :=
  match v with
  | PInt z => Some (inject_Z z)
  | PBool b => Some (inject_Z (if b then 1 else 0))
  | PFloat q => Some q
  | _ => None
  end.

Definition Qltb (x y : Q) : bool :=
  match (x ?= y)%Q with Lt => true | _ => false end.

(** [x < v] for a float [x] *)
Definition py_lt (x : Q) (v : pyval) : result bool :=
  match num_of v with
  | Some q => Ok (Qltb x q)
  | None => Raise (Exn TypeError "'<' not supported between instances")
  end.

(** [n > v] for an int [n] *)
Definition py_gt_int (n : Z) (v : pyval) : result bool :=
  match num_of v with
  | Some q => Ok (Qltb q (inject_Z n))
  | None => Raise (Exn TypeError "'>' not supported between instances")
  end.

(** [-v] used as the stop of a slice, which must be an integer. *)
Definition py_neg_index (v : pyval) : result Z :=
  match v with
  | PInt z => Ok (- z)
  | PBool b => Ok (- (if b then 1 else 0))
  | PFloat _ => Raise (Exn TypeError "slice indices must be integers")
  | _ => Raise (Exn TypeError "bad operand type for unary -")
  end.

(** The binary64 number nearest to the integer [n >= 0], ties to even:
    integers below [2^53] are representable, larger ones keep their 53
    leading bits. *)
Definition round_b64 (n : Z) : Z :=
  if n <? 2 ^ 53 then n
  else
    let e := Z.log2 n - 52 in
    let m := n / 2 ^ e in
    let r := n mod 2 ^ e in
    let half := 2 ^ (e - 1) in
    let m' := if (r <? half) || ((r =? half) && Z.even m) then m else m + 1 in
    m' * 2 ^ e.

(** [n / (1024 ** 3)]: true division of two ints yields the float
    nearest to the quotient; dividing by a power of two commutes with
    the rounding. *)
Definition div_gib (n : Z) : Q := round_b64 n # 1073741824.

(** [str(v)] inside an f-string.  A float is never formatted by the
    script with [str]; it is given a placeholder. *)
Definition py_str (v : pyval) : string :=
  match v with
  | PNone => "None"
  | PBool b => if b then "True" else "False"
  | PInt z => pretty z
  | PFloat _ => "<float>"
  | PStr s => s
  | POther _ => "<object>"
  end.

(** [d[k]] *)
Definition getitem (d : gmap string pyval) (k : string) : result pyval :=
  match d !! k with
  | Some v => Ok v
  | None => Raise (Exn KeyError k)
  end.

(** [d.setdefault(k, v)], for its effect on [d]. *)
Definition setdefault (k : string) (v : pyval) (d : gmap string pyval)
  : gmap string pyval :=
  match d !! k with
  | Some _ => d
  | None => <[k := v]> d
  end.

(** *** load_config *)

Definition DEFAULT_CONFIG_PATH : string := "/etc/backup_config.yaml".

Definition required_fields : list string :=
  ["backup_root"; "min_free_space_gb"; "max_backups"].

(** [open(config_path)] and [yaml.safe_load(f)] *)
Definition safe_load (config_path : string) : M world document :=
  fun w => (yaml_at w config_path, w).

(** [field in config]: key lookup in a dict, element equality in a
    list, substring search in a string, [TypeError] otherwise. *)
Definition contains (field : string) (config : document) : result bool :=
  match config with
  | DocDict d => Ok (bool_decide (is_Some (d !! field)))
  | DocList l =>
      Ok (existsb (fun v => match v with
                            | PStr s => String.eqb s field
                            | _ => false
                            end) l)
  | DocScalar (PStr s) => Ok (str_contains s field)
  | DocScalar _ => Raise (Exn TypeError "argument is not iterable")
  end.

(** The attribute lookup [config.setdefault]: only a dict has it. *)
Definition dict_of (config : document) : result (gmap string pyval) :=
  match config with
  | DocDict d => Ok d
  | _ => Raise (Exn AttributeError "object has no attribute 'setdefault'")
  end.

Definition load_config (config_path : string) : M world (gmap string pyval) :=
  try_catch
    (config <- safe_load config_path ;;
     for_each required_fields
       (fun field =>
          present <- lift (contains field config) ;;
          if negb present
          then raise (Exn ValueError ("Missing required field: " ++ field))
          else ret tt) ;;
     d <- lift (dict_of config) ;;
     let d := setdefault "source_dir" PNone d in
     let d := setdefault "log_level" (PStr "INFO") d in
     let d := setdefault "max_logs" (PInt 5) d in
     ret d)
    (fun e => raise (Exn RuntimeError ("Config load error: " ++ exn_str e))).

(** *** BackupManager *)

(** The attributes of a [BackupManager]; [self.logger] is the logger of
    the world. *)
Record manager := Manager {
  config : gmap string pyval;
  backup_dir : string;
  log_dir : string;
  log_file : string
}.

(** [logging.FileHandler(path)] opens [path], the file [f] of directory
    [d], for appending, creating it when it is missing. *)
Definition file_handler (d f : string) : M world unit :=
  fun w =>
    match dirs w !! d with
    | Some l =>
        match find_entry l f with
        | None =>
            (Ok tt,
             with_dirs (<[d := place (slot w f) (Entry f RegFile (clock w)) l]>
                          (dirs w)) w)
        | Some (Entry _ SubDir _) =>
            (Raise (Exn IsADirectoryError (path_join d f)), w)
        | Some _ => (Ok tt, w)
        end
    | None => (Raise (Exn FileNotFoundError (path_join d f)), w)
    end.

(** [v.upper()] is defined on strings only. *)
Definition upper_attr (v : pyval) : result string :=
  match v with
  | PStr s => Ok (upper s)
  | _ => Raise (Exn AttributeError "object has no attribute 'upper'")
  end.

(** What [logging.basicConfig] makes of
    [level=getattr(logging, name, logging.INFO)].  The names in capitals
    that the module [logging] defines are levels, which are integers,
    but for two: the format string [BASIC_FORMAT], which is not the
    name of a level, and the table [_STYLES]; any other name yields
    [logging.INFO].  Which records the level lets through is not
    modelled: [logs] records the calls to the logger. *)
Definition basic_config_level (name : string) : result unit :=
  if String.eqb name "BASIC_FORMAT"
  then Raise (Exn ValueError "Unknown level")
  else if String.eqb name "_STYLES"
  then Raise (Exn TypeError "Level not an integer or a valid string")
  else Ok tt.

(** The handlers are built, and the log file opened, before
    [basicConfig] looks at the level. *)
Definition setup_logging (self : manager) : M world unit :=
  there <- os_path_exists (PStr (log_dir self)) ;;
  (if negb there then makedirs (log_dir self) else ret tt) ;;
  lv <- lift (getitem (config self) "log_level") ;;
  name <- lift (upper_attr lv) ;;
  file_handler (log_dir self) "backup.log" ;;
  lift (basic_config_level name).

(** [BackupManager(config)] *)
Definition BackupManager (config : gmap string pyval) : M world manager :=
  root <- lift (getitem config "backup_root") ;;
  bdir <- lift (os_path_join root "backup_files") ;;
  root' <- lift (getitem config "backup_root") ;;
  ldir <- lift (os_path_join root' "logs") ;;
  let self := Manager config bdir ldir (path_join ldir "backup.log") in
  setup_logging self ;;
  ret self.

(** [sorted(files, key=os.path.getmtime)]: the keys are computed first,
    in list order, then the list is sorted on them. *)
Definition sorted_by_mtime (directory : string) (files : list string)
  : M world (list string) :=
  keys <- map_m (getmtime directory) files ;;
  ret (map fst (sort_by snd (zip files keys))).

(** The [try] block of [cleanup_old_files].  A path
    [os.path.join(directory, f)] is kept as the pair of [directory] and
    [f]; [f] comes from a listing, so it is the basename of the path. *)
Definition cleanup_attempt (directory extension : string)
    (max_files : pyval) : M world unit :=
  names <- listdir directory ;;
  files <- sorted_by_mtime directory
             (List.filter (fun f => endswith f extension) names) ;;
  over <- lift (py_gt_int (Z.of_nat (length files)) max_files) ;;
  if over then
    stop <- lift (py_neg_index max_files) ;;
    for_each (slice_to files stop)
      (fun old_file =>
         remove directory old_file ;;
         logger_info (MsgRemovedOld old_file))
  else ret tt.

Definition cleanup_old_files (directory extension : string)
    (max_files : pyval) : M world unit :=
  try_catch
    (cleanup_attempt directory extension max_files)
    (fun e => logger_error (MsgCleanupError e)).

Definition check_disk_space (self : manager) : M world bool :=
  root <- lift (getitem (config self) "backup_root") ;;
  free <- disk_usage_free root ;;
  let free_space_gb := div_gib free in
  required <- lift (getitem (config self) "min_free_space_gb") ;;
  low <- lift (py_lt free_space_gb required) ;;
  if low then
    logger_error (MsgNoSpace free_space_gb required) ;;
    ret false
  else ret true.

Definition now_strftime : M world string := fun w => (Ok (timestamp w), w).

Definition run_backup (self : manager) (source_dir : pyval) : M world Z :=
  try_catch
    (logger_info MsgBackupStart ;;
     enough <- check_disk_space self ;;
     if negb enough then raise (Exn RuntimeError "Not enough disk space")
     else
     src_there <- os_path_exists source_dir ;;
     if negb src_there
     then raise (Exn FileNotFoundError
                   ("Source directory does not exist: " ++ py_str source_dir))
     else
     dir_there <- os_path_exists (PStr (backup_dir self)) ;;
     (if negb dir_there then
        makedirs (backup_dir self) ;;
        logger_info (MsgCreatedDir (backup_dir self))
      else ret tt) ;;
     ts <- now_strftime ;;
     base <- lift (os_path_basename source_dir) ;;
     let backup_name := "backup_" ++ base ++ "_" ++ ts ++ ".tar.gz" in
     let backup_path := path_join (backup_dir self) backup_name in
     logger_info (MsgCreating backup_path) ;;
     make_archive (backup_dir self) backup_name ;;
     max_backups <- lift (getitem (config self) "max_backups") ;;
     cleanup_old_files (backup_dir self) ".tar.gz" max_backups ;;
     max_logs <- lift (getitem (config self) "max_logs") ;;
     cleanup_old_files (log_dir self) ".log" max_logs ;;
     logger_info (MsgBackupDone backup_path) ;;
     ret 0)
    (fun e => logger_error (MsgCritical e) ;; ret 1).

(** *** Entry point *)

(** The parsed command line: [--config] (with its default) and
    [--source]. *)
Record args := Args { args_config : string; args_source : option string }.

(** [if args.source: config['source_dir'] = args.source] *)
Definition override_source (a : args) (config : gmap string pyval)
  : gmap string pyval :=
  match args_source a with
  | Some s => if truthy (PStr s) then <["source_dir" := PStr s]> config
              else config
  | None => config
  end.

(** The [try] statement that ends the script, which follows the parsing
    of the command line; the result is the exit status handed to
    [sys.exit]. *)
Definition main (a : args) : M world Z :=
  try_catch
    (config <- load_config (args_config a) ;;
     let config := override_source a config in
     src <- lift (getitem config "source_dir") ;;
     if negb (truthy src)
     then raise (Exn ValueError "No source directory given")
     else
     manager <- BackupManager config ;;
     run_backup manager src)
    (fun e => print_stderr ("Initialization error: " ++ exn_str e) ;; ret 1).

(** *** Vocabulary of the statements *)

(** What the specification calls a [ConfigError]: the [RuntimeError]
    that [load_config] raises in place of any failure. *)
Definition ConfigError (e : exn) : Prop :=
  exists cause, e = Exn RuntimeError ("Config load error: " ++ cause).

(** The document is a mapping with the three required keys. *)
Definition has_required (doc : document) : bool :=
  match doc with
  | DocDict d =>
      forallb (fun k => bool_decide (is_Some (d !! k))) required_fields
  | _ => false
  end.

(** The entries of a listing that the suffix filter selects. *)
Definition matching (ext : string) (l : list entry) : list entry :=
  List.filter (fun e => endswith (name e) ext) l.

Definition is_broken (e : entry) : bool :=
  match kind_of e with BrokenLink => true | _ => false end.

Definition is_subdir (e : entry) : bool :=
  match kind_of e with SubDir => true | _ => false end.

Definition is_regular (e : entry) : bool :=
  match kind_of e with RegFile => true | _ => false end.

(** The listing after removing the entries [ev] in turn, up to the
    first one that [os.remove] refuses. *)
Fixpoint remove_until (ev : list entry) (l : list entry) : list entry :=
  match ev with
  | [] => l
  | e :: ev' =>
      if is_subdir e then l else remove_until ev' (drop_entry (name e) l)
  end.

(** The entries of [ev] that are removed before [os.remove] refuses
    one. *)
Fixpoint removable (ev : list entry) : list entry :=
  match ev with
  | [] => []
  | e :: ev' => if is_subdir e then [] else e :: removable ev'
  end.

(** [e] bears none of the names of [gone]. *)
Definition keep_out (gone : list entry) (e : entry) : bool :=
  negb (existsb (fun g => String.eqb (name e) (name g)) gone).


(** Nothing has gone from [ds] to [ds']: every directory is still
    there and lists every entry it listed. *)
Definition grown (ds ds' : gmap string (list entry)) : Prop :=
  forall d l,
    ds !! d = Some l ->
    exists l', ds' !! d = Some l' /\ forall e, In e l -> In e l'.

(** The entries of a listing that the suffix filter passes over. *)
Definition other_entries (ext : string) (l : list entry) : list entry :=
  List.filter (fun e => negb (endswith (name e) ext)) l.

(** From [w] to [w'] the same directories exist, those other than [d]
    are as they were, and in each of them the entries whose names do
    not end in [ext] are as they were. *)
Definition framed (d ext : string) (w w' : world) : Prop :=
  other_entries ext <$> dirs w' = other_entries ext <$> dirs w /\
  delete d (dirs w') = delete d (dirs w).

(** [c] respects the relation [R] between the worlds before and after,
    and what it returns satisfies [Q]. *)
Definition keeps (R : world -> world -> Prop) {A} (c : M world A)
    (Q : A -> Prop) : Prop :=
  forall w, R w (snd (c w)) /\ forall a, fst (c w) = Ok a -> Q a.

(** The listing that [cleanup_old_files] leaves behind, computed from
    the listing it found, for an integer bound [n]. *)
Definition prune (ext : string) (n : Z) (l : list entry) : list entry :=
  let m := matching ext l in
  if existsb is_broken m then l
  else
    let s := sort_by mtime m in
    if n <? Z.of_nat (length s) then remove_until (slice_to s (- n)) l
    else l.

(** The world in which [path] holds the YAML document [doc]. *)
Definition with_yaml (path : string) (doc : document) (w : world) : world :=
  World (dirs w) (free_bytes w) (clock w) (timestamp w) (archiver_fails w)
        (partial_archive w) (slot w)
        (fun p => if String.eqb p path then Ok doc else yaml_at w p)
        (fd_open w) (logs w) (stderr w).

(** A world with nothing logged or printed, no YAML file and no open
    descriptor; a failing archiver leaves nothing behind, and a new
    name comes first in its listing. *)
Definition quiet (ds : gmap string (list entry)) (free : Z)
    (broken_archiver : bool) : world :=
  World ds free 1700000000 "20231114_221320" broken_archiver false
        (fun _ => 0%nat)
        (fun p => Raise (Exn FileNotFoundError p)) (fun _ => false) [] [].


(** A directory of three archives and a text file. *)
Definition vault : world :=
  quiet {[ "/vault" :=
             [Entry "mon.tar.gz" RegFile 100;
              Entry "notes.txt" RegFile 50;
              Entry "wed.tar.gz" RegFile 300;
              Entry "tue.tar.gz" RegFile 200] ]}
        0 false.

(** A manager as [BackupManager] builds it from a loaded
    configuration that keeps one archive. *)
Definition nightly (max_logs : pyval) : manager :=
  Manager {[ "backup_root" := PStr "/srv/backup";
             "min_free_space_gb" := PInt 2;
             "max_backups" := PInt 1;
             "source_dir" := PStr "/home/data";
             "log_level" := PStr "INFO";
             "max_logs" := max_logs ]}
          "/srv/backup/backup_files" "/srv/backup/logs"
          "/srv/backup/logs/backup.log".

(** A backup root holding two archives, a directory whose name ends in
    [.tar.gz], and a text file. *)
Definition site (free : Z) : world :=
  quiet {[ "/srv/backup" := [];
           "/srv/backup/backup_files" :=
             [Entry "backup_data_20230101_000000.tar.gz" RegFile 1672531200;
              Entry "README.txt" RegFile 1600000000;
              Entry "staging.tar.gz" SubDir 1500000000;
              Entry "backup_data_20230201_000000.tar.gz" RegFile 1675209600];
           "/srv/backup/logs" := [Entry "backup.log" RegFile 1675209601];
           "/home/data" := [] ]}
        free false.

End Backup.

(** ** The update script *)

Module UpdateLinux.
Import Py.

(** How [subprocess.run(cmd, check=True, ...)] ends: the process exits
    with a status and its merged output, or cannot be started. *)
Inductive outcome :=
  | Exited (status : Z) (stdout : string)
  | NotStarted (e : exn).

Inductive level := INFO | ERROR.

Inductive message :=
  | MsgDetected (distrib_id : string)
  | MsgAptUpdateError (output : string)
  | MsgAptUpgradeError (output : string)
  | MsgCleanError (output : string)
  | MsgDnfError (output : string)
  | MsgYumError (output : string)
  | MsgUnsupported
  | MsgUpdated
  | MsgCritical (e : exn).

Record world := World {
  (** the text of the lines that iterating over [/etc/os-release]
      yields, if the file exists: the whole file or, when the reading
      fails, the lines yielded before it does.  A text file is decoded
      block by block, so these can be fewer than the lines that stand
      before a byte that cannot be decoded. *)
  os_release : option string;
  (** the exception, if any, that ends the reading after these lines:
      [open] refusing the file, in which case there is no line, or a
      block that cannot be decoded *)
  release_fault : option exn;
  (** the host: how a command ends, given the commands issued before *)
  exec : list (list string) -> list string -> outcome;
  (** the commands issued so far, oldest first *)
  trace : list (list string);
  (** calls to the logger, oldest first *)
  logs : list (level * message)
}.

Definition log (lv : level) (m : message) : M world unit :=
  fun w =>
    (Ok tt,
     World (os_release w) (release_fault w) (exec w) (trace w)
           (logs w ++ [(lv, m)])).

Definition logger_info := log INFO.
Definition logger_error := log ERROR.

(** The attributes of a [SystemUpdater]. *)
Record updater := Updater {
  full_upgrade : bool;
  clean : bool;
  distrib_id : string
}.

Definition _run_command (cmd : list string) : M world (bool * string) :=
  fun w =>
    let w' := World (os_release w) (release_fault w) (exec w)
                    (trace w ++ [cmd]) (logs w) in
    match exec w (trace w) cmd with
    | Exited status stdout => (Ok (bool_decide (status = 0), stdout), w')
    | NotStarted e => (Raise e, w')
    end.

(** The loop over the lines of the file, with its [return] inside.
    When the lines run out, the reading has either reached the end of
    the file, and the function falls through to its last line, or has
    met [fault], which nothing catches. *)
Fixpoint scan_lines (fault : option exn) (lines : list string)
  : result string :=
  match lines with
  | [] =>
      match fault with
      | Some e => Raise e
      | None => Ok "unknown"
      end
  | line :: rest =>
      if startswith line "ID=" then
        match index (split "="%char (strip line)) 1 with
        | Ok v => Ok (strip_char QUOTE v)
        | Raise e => Raise e
        end
      else scan_lines fault rest
  end.

Definition _get_distribution : M world string :=
  fun w =>
    match os_release w with
    | Some content =>
        (scan_lines (release_fault w) (file_lines content), w)
    | None => (Ok "unknown", w)
    end.

(** [SystemUpdater(full_upgrade, clean)] *)
Definition SystemUpdater (full_upgrade clean : bool) : M world updater :=
  id <- _get_distribution ;;
  ret (Updater full_upgrade clean id).

Definition _apt_update (self : updater) : M world bool :=
  r <- _run_command ["apt"; "update"] ;;
  (if negb r.1 then logger_error (MsgAptUpdateError r.2) else ret tt) ;;
  ret r.1.

Definition _apt_upgrade (self : updater) : M world bool :=
  let cmd := if full_upgrade self then ["apt"; "full-upgrade"; "-y"]
             else ["apt"; "upgrade"; "-y"] in
  r <- _run_command cmd ;;
  (if negb r.1 then logger_error (MsgAptUpgradeError r.2) else ret tt) ;;
  ret r.1.

(** [for cmd in commands: ...  return False] on the first failure,
    [return True] after the loop. *)
Fixpoint run_all (err : string -> message) (commands : list (list string))
  : M world bool :=
  match commands with
  | [] => ret true
  | cmd :: rest =>
      r <- _run_command cmd ;;
      if negb r.1 then logger_error (err r.2) ;; ret false
      else run_all err rest
  end.

Definition _apt_clean (self : updater) : M world bool :=
  run_all MsgCleanError
    [["apt"; "autoremove"; "-y"];
     ["apt"; "clean"];
     ["rm"; "-rf"; "/var/lib/apt/lists/*"]].

(** [filter(None, commands)] keeps the commands that are not [None]. *)
Definition _dnf_upgrade (self : updater) : M world bool :=
  run_all MsgDnfError
    ([["dnf"; "upgrade"; "-y"]]
     ++ (if clean self then [["dnf"; "autoremove"; "-y"]] else [])
     ++ (if clean self then [["dnf"; "clean"; "all"]] else []))%list.

Definition _yum_upgrade (self : updater) : M world bool :=
  run_all MsgYumError
    ([["yum"; "update"; "-y"]]
     ++ (if clean self then [["yum"; "clean"; "all"]] else []))%list.

(** [x in (a, b, c)] for strings *)
Definition in_tuple (x : string) (t : list string) : bool :=
  existsb (String.eqb x) t.

Definition run (self : updater) : M world bool :=
  logger_info (MsgDetected (distrib_id self)) ;;
  try_catch
    (if in_tuple (distrib_id self) ["debian"; "ubuntu"; "linuxmint"] then
       updated <- _apt_update self ;;
       if negb updated then ret false else
       upgraded <- _apt_upgrade self ;;
       if negb upgraded then ret false else
       cleaned <- (if clean self then _apt_clean self else ret true) ;;
       if clean self && negb cleaned then ret false else
       logger_info MsgUpdated ;;
       ret true
     else if in_tuple (distrib_id self) ["fedora"; "centos"; "rhel"] then
       done <- (if str_contains (distrib_id self) "fedora"
                then _dnf_upgrade self else _yum_upgrade self) ;;
       if negb done then ret false else
       logger_info MsgUpdated ;;
       ret true
     else
       logger_error MsgUnsupported ;;
       ret false)
    (fun e => logger_error (MsgCritical e) ;; ret false).

(** The status with which the interpreter ends: the one handed to
    [sys.exit], or 1 when an exception escapes. *)
Definition exit_status (r : result Z) : Z :=
  match r with
  | Ok status => status
  | Raise _ => 1
  end.

(** The last two lines of the script, which follow the parsing of the
    command line: [full] and [clean] are [args.full] and [args.clean],
    the result is the status handed to [sys.exit]. *)
Definition main (full clean : bool) : M world Z :=
  updater <- SystemUpdater full clean ;;
  ok <- run updater ;;
  ret (if ok then 0 else 1).

(** *** Vocabulary of the statements *)

(** The distribution ids that [run] dispatches on. *)
Definition supported : list string :=
  ["debian"; "ubuntu"; "linuxmint"; "fedora"; "centos"; "rhel"].

(** A command that ran and exited with status 0. *)
Definition succeeds (o : outcome) : bool :=
  match o with
  | Exited status _ => bool_decide (status = 0)
  | NotStarted _ => false
  end.

(** The commands that [run] sets out to issue for a distribution, in
    order: none for an id it does not dispatch on. *)
Definition plan (self : updater) : list (list string) :=
  if in_tuple (distrib_id self) ["debian"; "ubuntu"; "linuxmint"] then
    ([["apt"; "update"];
      ["apt"; if full_upgrade self then "full-upgrade" else "upgrade"; "-y"]]
     ++ (if clean self
         then [["apt"; "autoremove"; "-y"];
               ["apt"; "clean"];
               ["rm"; "-rf"; "/var/lib/apt/lists/*"]]
         else []))%list
  else if in_tuple (distrib_id self) ["fedora"; "centos"; "rhel"] then
    if String.eqb (distrib_id self) "fedora" then
      ([["dnf"; "upgrade"; "-y"]]
       ++ (if clean self
           then [["dnf"; "autoremove"; "-y"]; ["dnf"; "clean"; "all"]]
           else []))%list
    else
      ([["yum"; "update"; "-y"]]
       ++ (if clean self then [["yum"; "clean"; "all"]] else []))%list
  else [].

(** Every command of [cmds] exits with status 0 on a host that answers
    by [exec], each one seeing the commands [tr] issued before it. *)
Fixpoint all_succeed (exec : list (list string) -> list string -> outcome)
    (tr : list (list string)) (cmds : list (list string)) : bool :=
  match cmds with
  | [] => true
  | cmd :: rest =>
      succeeds (exec tr cmd) && all_succeed exec (tr ++ [cmd]) rest
  end.

(** The commands of [cmds] up to and including the first one that does
    not exit with status 0. *)
Fixpoint issued (exec : list (list string) -> list string -> outcome)
    (tr : list (list string)) (cmds : list (list string))
  : list (list string) :=
  match cmds with
  | [] => []
  | cmd :: rest =>
      cmd :: (if succeeds (exec tr cmd)
              then issued exec (tr ++ [cmd]) rest else [])
  end.

(** A line [ID=raw] of the release file, with its line end. *)
Definition id_line (raw : string) : string :=
  "ID=" ++ raw ++ String LF EmptyString.

Definition quoted (v : string) : string :=
  String QUOTE (v ++ String QUOTE EmptyString).

Definition no_id (line : string) : Prop := startswith line "ID=" = false.

(** The first character of [s], if any, satisfies [p]. *)
Definition begins_in (p : ascii -> bool) (s : string) : bool :=
  match s with
  | EmptyString => false
  | String c _ => p c
  end.

(** The last character of [s], if any, satisfies [p]. *)
Fixpoint ends_in (p : ascii -> bool) (s : string) : bool :=
  match s with
  | EmptyString => false
  | String c EmptyString => p c
  | String _ s' => ends_in p s'
  end.

(** Nothing but double quotes. *)
Definition quotes (s : string) : bool := all_chars (Ascii.eqb QUOTE) s.

(** Nothing but white space: a line end, or the blanks before it. *)
Definition blank (s : string) : bool := all_chars isspace s.

(** A value as [_get_distribution] hands it out: no equals sign in it,
    no double quote at either end. *)
Definition unquoted (v : string) : bool :=
  all_chars (fun c => negb (Ascii.eqb c "="%char)) v
  && negb (begins_in (Ascii.eqb QUOTE) v)
  && negb (ends_in (Ascii.eqb QUOTE) v).

(** A host that has issued no command and logged nothing yet. *)
Definition host (release : option string)
    (exec : list (list string) -> list string -> outcome) : world :=
  World release None exec [] [].

(** A host whose release file exists but cannot be opened. *)
Definition locked
    (exec : list (list string) -> list string -> outcome) : world :=
  World (Some EmptyString)
        (Some (Exn PermissionError "/etc/os-release")) exec [] [].

(** A host on which every command succeeds silently. *)
Definition obliging : list (list string) -> list string -> outcome :=
  fun _ _ => Exited 0 EmptyString.

(** A host whose package index cannot be refreshed. *)
Definition offline : list (list string) -> list string -> outcome :=
  fun _ cmd =>
    if bool_decide (cmd = ["apt"; "update"])
    then Exited 100 "E: Failed to fetch"
    else Exited 0 EmptyString.

(** A host without any package manager: no command can be started. *)
Definition bare : list (list string) -> list string -> outcome :=
  fun _ cmd =>
    NotStarted (Exn FileNotFoundError (List.hd EmptyString cmd)).

End UpdateLinux.

(** * Properties *)

(** ** Strings *)

Section StringFacts.
Import Py.

Lemma rstrip_by_keep p c s :
  p c = false -> rstrip_by p (String c s) = String c (rstrip_by p s).
Proof.
  intros Hc. simpl. rewrite Hc. destruct (rstrip_by p s); reflexivity.
Qed.

Lemma split_none sep s :
  all_chars (fun c => negb (Ascii.eqb c sep)) s = true -> split sep s = [s].
Proof.
  induction s as [|c s IH]; simpl; [reflexivity|].
  intros [Hc Hs]%andb_true_iff. apply negb_true_iff in Hc.
  rewrite Hc, (IH Hs). reflexivity.
Qed.

Lemma all_chars_impl (p q : ascii -> bool) s :
  (forall c, p c = true -> q c = true) ->
  all_chars p s = true -> all_chars q s = true.
Proof.
  intros Hpq. induction s as [|c s IH]; simpl; [reflexivity|].
  intros [Hc Hs]%andb_true_iff. rewrite (Hpq c Hc), (IH Hs). reflexivity.
Qed.

Lemma all_chars_app p s t :
  all_chars p (s ++ t) = all_chars p s && all_chars p t.
Proof.
  induction s as [|c s IH]; simpl; [reflexivity|].
  rewrite IH, andb_assoc. reflexivity.
Qed.

(** A line that starts with [ID=] is [ID=] followed by something. *)
Lemma startswith_ID line :
  startswith line "ID=" = true -> exists t, line = "ID=" ++ t.
Proof.
  unfold startswith. rewrite prefix_correct.
  destruct line as [|a [|b [|c t]]]; simpl; try discriminate.
  intros [= -> -> ->]. exists t. reflexivity.
Qed.

(** The first field of a stripped [ID=] line is [ID]; a second field
    always exists. *)
Lemma split_ID_line t :
  exists v rest, split "="%char (strip ("ID=" ++ t)) = "ID" :: v :: rest.
Proof.
  unfold strip, strip_by.
  change (lstrip_by isspace ("ID=" ++ t)) with ("ID=" ++ t).
  change ("ID=" ++ t) with (String "I" (String "D" (String "=" t))).
  rewrite !rstrip_by_keep by reflexivity.
  change (split "="%char (String "I" (String "D" (String "=" ?x))))
    with (match (match split "="%char (String "=" x) with
                 | f :: fs => String "D" f :: fs
                 | [] => [String "D" EmptyString] end) with
          | f :: fs => String "I" f :: fs
          | [] => [String "I" EmptyString] end).
  simpl. destruct (split "="%char (rstrip_by isspace t)) as [|v rest] eqn:E.
  - destruct (rstrip_by isspace t); simpl in E; [discriminate|].
    destruct (Ascii.eqb _ _); [discriminate|].
    destruct (split _ _); discriminate.
  - exists v, rest. reflexivity.
Qed.

Lemma rstrip_by_inner p u c x :
  p c = false ->
  rstrip_by p (u ++ String c x) = u ++ String c (rstrip_by p x).
Proof.
  intros Hc. induction u as [|a u IH].
  - apply rstrip_by_keep, Hc.
  - change (rstrip_by p (String a (u ++ String c x))
            = String a (u ++ String c (rstrip_by p x))).
    cbn [rstrip_by]. rewrite IH.
    destruct u; reflexivity.
Qed.

Lemma split_at_sep sep u x :
  all_chars (fun c => negb (Ascii.eqb c sep)) u = true ->
  exists more, split sep (u ++ String sep x) = u :: more.
Proof.
  induction u as [|a u IH]; intros H.
  - change (exists more, split sep (String sep x) = EmptyString :: more).
    cbn [split]. rewrite Ascii.eqb_refl. eexists. reflexivity.
  - cbn [all_chars] in H. apply andb_true_iff in H as [Ha Hu].
    apply negb_true_iff in Ha.
    destruct (IH Hu) as [more E].
    change (exists more0,
              split sep (String a (u ++ String sep x)) = String a u :: more0).
    cbn [split]. rewrite Ha, E. eexists. reflexivity.
Qed.

End StringFacts.

(** ** The update script *)

Section UpdateLinuxFacts.
Import Py UpdateLinux.

Lemma in_tuple_app x a b :
  in_tuple x (a ++ b)%list = in_tuple x a || in_tuple x b.
Proof. unfold in_tuple. apply existsb_app. Qed.

(** The loop of [_get_distribution] raises nothing of its own: a line
    that starts with [ID=] has a second field. *)
Lemma scan_lines_raises fault lines e :
  scan_lines fault lines = Raise e -> fault = Some e /\ Forall no_id lines.
Proof.
  induction lines as [|line rest IH]; cbn [scan_lines].
  - destruct fault as [e'|]; [|discriminate].
    intros [= ->]. split; [reflexivity|constructor].
  - destruct (startswith line "ID=") eqn:E.
    + apply startswith_ID in E as [t ->].
      destruct (split_ID_line t) as (v & more & ->). discriminate.
    + intros [Hf Hrest]%IH. split; [exact Hf|].
      constructor; [exact E|exact Hrest].
Qed.

Lemma scan_lines_no_id fault lines :
  Forall no_id lines ->
  scan_lines fault lines
  = match fault with Some e => Raise e | None => Ok "unknown" end.
Proof.
  induction 1 as [|line rest H _ IH]; simpl; [reflexivity|].
  unfold no_id in H. rewrite H. exact IH.
Qed.

Lemma scan_lines_skip fault pre lines :
  Forall no_id pre ->
  scan_lines fault (pre ++ lines) = scan_lines fault lines.
Proof.
  induction 1 as [|line rest H _ IH]; simpl; [reflexivity|].
  unfold no_id in H. rewrite H. exact IH.
Qed.

Lemma rstrip_by_all p t : all_chars p t = true -> rstrip_by p t = EmptyString.
Proof.
  induction t as [|c t IH]; simpl; [reflexivity|].
  intros [Hc Ht]%andb_true_iff. rewrite (IH Ht), Hc. reflexivity.
Qed.

Lemma rstrip_by_blank p s t :
  all_chars p t = true -> rstrip_by p (s ++ t) = rstrip_by p s.
Proof.
  intros Ht. induction s as [|a s IH].
  - change (rstrip_by p t = EmptyString). apply rstrip_by_all, Ht.
  - change (rstrip_by p (String a (s ++ t)) = rstrip_by p (String a s)).
    cbn [rstrip_by]. rewrite IH. reflexivity.
Qed.

Lemma rstrip_by_fixed p s : ends_in p s = false -> rstrip_by p s = s.
Proof.
  induction s as [|c s IH]; [reflexivity|].
  destruct s as [|d s'].
  - simpl. intros ->. reflexivity.
  - intros H. change (ends_in p (String d s') = false) in H.
    change (rstrip_by p (String c (String d s')))
      with (match rstrip_by p (String d s') with
            | EmptyString => if p c then EmptyString else String c EmptyString
            | String a r => String c (String a r)
            end).
    rewrite (IH H). reflexivity.
Qed.

Lemma lstrip_by_all p q s :
  all_chars p q = true -> lstrip_by p (q ++ s) = lstrip_by p s.
Proof.
  induction q as [|a q IH]; [reflexivity|].
  intros [Ha Hq]%andb_true_iff.
  change (lstrip_by p (String a (q ++ s)) = lstrip_by p s).
  cbn [lstrip_by]. rewrite Ha. apply IH, Hq.
Qed.

Lemma lstrip_by_fixed p s : begins_in p s = false -> lstrip_by p s = s.
Proof. destruct s as [|c s]; simpl; [reflexivity|]. intros ->. reflexivity. Qed.

Lemma append_empty s : s ++ EmptyString = s.
Proof.
  induction s as [|a s IH]; [reflexivity|].
  change (String a (s ++ EmptyString) = String a s). rewrite IH. reflexivity.
Qed.

(** [strip] with the double quote as its argument takes the double
    quotes off both ends, however many, and nothing else. *)
Lemma strip_char_unquote q1 v q2 :
  quotes q1 = true -> quotes q2 = true ->
  begins_in (Ascii.eqb QUOTE) v = false ->
  ends_in (Ascii.eqb QUOTE) v = false ->
  strip_char QUOTE (q1 ++ v ++ q2) = v.
Proof.
  intros H1 H2 Hb He. unfold strip_char, strip_by.
  rewrite lstrip_by_all by exact H1.
  destruct v as [|c v].
  - change (rstrip_by (Ascii.eqb QUOTE) (lstrip_by (Ascii.eqb QUOTE) q2)
            = EmptyString).
    rewrite <- (append_empty q2).
    rewrite lstrip_by_all by exact H2. reflexivity.
  - rewrite lstrip_by_fixed by exact Hb.
    rewrite rstrip_by_blank by exact H2.
    apply rstrip_by_fixed, He.
Qed.

Lemma quotes_no_equals q :
  quotes q = true ->
  all_chars (fun c => negb (Ascii.eqb c "="%char)) q = true.
Proof.
  apply all_chars_impl. intros c Hc. apply Ascii.eqb_eq in Hc.
  subst c. reflexivity.
Qed.

Lemma split_id_value raw :
  all_chars (fun c => negb (Ascii.eqb c "="%char)) raw = true ->
  split "="%char ("ID=" ++ raw) = ["ID"; raw].
Proof.
  intros H.
  change ("ID=" ++ raw) with (String "I" (String "D" (String "=" raw))).
  cbn [split]. rewrite (split_none _ _ H). reflexivity.
Qed.

Lemma startswith_ID_eq t : startswith ("ID=" ++ t) "ID=" = true.
Proof.
  unfold startswith. apply prefix_correct. destruct t; reflexivity.
Qed.

(** What the first [ID=] line yields.  The line is [ID=], a value
    between double quotes of any number, and a tail that is either the
    white space at the end of the line or a second equals sign with
    whatever follows it. *)
Lemma scan_lines_first fault q1 v q2 tail rest :
  quotes q1 = true -> quotes q2 = true -> unquoted v = true ->
  blank tail = true /\ ends_in isspace (q1 ++ v ++ q2) = false \/
  begins_in (Ascii.eqb "="%char) tail = true ->
  scan_lines fault (("ID=" ++ (q1 ++ v ++ q2) ++ tail) :: rest) = Ok v.
Proof.
  intros H1 H2 Hv Htail.
  unfold unquoted in Hv.
  apply andb_true_iff in Hv as [Hv He]. apply andb_true_iff in Hv as [Hn Hb].
  apply negb_true_iff in He, Hb.
  set (u := q1 ++ v ++ q2) in *.
  assert (Hu : all_chars (fun c => negb (Ascii.eqb c "="%char)) u = true).
  { unfold u. rewrite !all_chars_app, Hn.
    rewrite (quotes_no_equals _ H1), (quotes_no_equals _ H2). reflexivity. }
  cbn [scan_lines]. rewrite startswith_ID_eq.
  unfold strip, strip_by.
  change (lstrip_by isspace ("ID=" ++ u ++ tail))
    with (String "I" (String "D" (String "=" (u ++ tail)))).
  rewrite !rstrip_by_keep by reflexivity.
  destruct Htail as [[Hblank Hend] | Heq].
  - rewrite rstrip_by_blank by exact Hblank.
    rewrite rstrip_by_fixed by exact Hend.
    change (String "I" (String "D" (String "=" u))) with ("ID=" ++ u).
    rewrite split_id_value by exact Hu.
    cbn [index lookup list_lookup]. f_equal.
    apply strip_char_unquote; assumption.
  - destruct tail as [|c t]; [discriminate|].
    cbn [begins_in] in Heq. apply Ascii.eqb_eq in Heq. subst c.
    rewrite rstrip_by_inner by reflexivity.
    destruct (split_at_sep "="%char u (rstrip_by isspace t) Hu) as [more E].
    cbn [split]. cbn [Ascii.eqb Bool.eqb]. rewrite E.
    cbn [index lookup list_lookup]. f_equal.
    apply strip_char_unquote; assumption.
Qed.

(** Any text is a part without equals sign, followed by nothing or by
    an equals sign and the rest. *)
Lemma cut_at_equals t :
  exists u rest,
    t = u ++ rest /\
    all_chars (fun c => negb (Ascii.eqb c "="%char)) u = true /\
    (rest = EmptyString \/ begins_in (Ascii.eqb "="%char) rest = true).
Proof.
  induction t as [|c t IH].
  - exists EmptyString, EmptyString. repeat split. left. reflexivity.
  - destruct (Ascii.eqb c "="%char) eqn:E.
    + exists EmptyString, (String c t). split; [reflexivity|].
      split; [reflexivity|]. right. cbn [begins_in].
      rewrite Ascii.eqb_sym. exact E.
    + destruct IH as (u & rest & -> & Hu & Hr).
      exists (String c u), rest. split; [reflexivity|].
      split; [|exact Hr]. cbn [all_chars]. rewrite E, Hu. reflexivity.
Qed.

(** Any text is a part that does not end in a [p]-character, followed
    by [p]-characters only. *)
Lemma cut_end p u :
  exists u' ws,
    u = u' ++ ws /\ all_chars p ws = true /\ ends_in p u' = false.
Proof.
  induction u as [|c u IH].
  - exists EmptyString, EmptyString. repeat split.
  - destruct IH as (u' & ws & -> & Hws & Hend). destruct u' as [|d u''].
    + destruct (p c) eqn:E.
      * exists EmptyString, (String c ws). split; [reflexivity|].
        split; [|reflexivity]. cbn [all_chars]. rewrite E, Hws. reflexivity.
      * exists (String c EmptyString), ws. split; [reflexivity|].
        split; [exact Hws|exact E].
    + exists (String c (String d u'')), ws. split; [reflexivity|].
      split; [exact Hws|exact Hend].
Qed.

Lemma cut_begin p x :
  exists q y, x = q ++ y /\ all_chars p q = true /\ begins_in p y = false.
Proof.
  induction x as [|c x IH].
  - exists EmptyString, EmptyString. repeat split.
  - destruct (p c) eqn:E.
    + destruct IH as (q & y & -> & Hq & Hy).
      exists (String c q), y. split; [reflexivity|].
      split; [|exact Hy]. cbn [all_chars]. rewrite E, Hq. reflexivity.
    + exists EmptyString, (String c x). split; [reflexivity|].
      split; [reflexivity|exact E].
Qed.

(** Any text is a part without double quote at either end, between
    double quotes in any number. *)
Lemma cut_quotes x :
  exists q1 v q2,
    x = q1 ++ v ++ q2 /\ quotes q1 = true /\ quotes q2 = true /\
    begins_in (Ascii.eqb QUOTE) v = false /\
    ends_in (Ascii.eqb QUOTE) v = false.
Proof.
  destruct (cut_begin (Ascii.eqb QUOTE) x) as (q1 & y & -> & H1 & Hy).
  destruct (cut_end (Ascii.eqb QUOTE) y) as (v & q2 & -> & H2 & Hv).
  exists q1, v, q2. repeat split; try assumption.
  destruct v as [|d v]; [reflexivity|exact Hy].
Qed.

(** Every line that starts with [ID=] has the shape on which
    [scan_lines_first] speaks. *)
Lemma id_line_shape line :
  startswith line "ID=" = true ->
  exists q1 v q2 tail,
    line = "ID=" ++ (q1 ++ v ++ q2) ++ tail /\
    quotes q1 = true /\ quotes q2 = true /\ unquoted v = true /\
    (blank tail = true /\ ends_in isspace (q1 ++ v ++ q2) = false \/
     begins_in (Ascii.eqb "="%char) tail = true).
Proof.
  intros [t ->]%startswith_ID.
  destruct (cut_at_equals t) as (u & rest & -> & Hu & Hrest).
  assert (Hshape : forall x,
            all_chars (fun c => negb (Ascii.eqb c "="%char)) x = true ->
            exists q1 v q2,
              x = q1 ++ v ++ q2 /\ quotes q1 = true /\ quotes q2 = true /\
              unquoted v = true).
  { intros x Hx.
    destruct (cut_quotes x) as (q1 & v & q2 & -> & H1 & H2 & Hb & He).
    exists q1, v, q2. repeat split; try assumption.
    rewrite !all_chars_app in Hx.
    apply andb_true_iff in Hx as [_ Hx]. apply andb_true_iff in Hx as [Hx _].
    unfold unquoted. rewrite Hx, Hb, He. reflexivity. }
  destruct Hrest as [-> | Hrest].
  - rewrite append_empty.
    destruct (cut_end isspace u) as (u' & ws & -> & Hws & Hend).
    rewrite all_chars_app in Hu. apply andb_true_iff in Hu as [Hu _].
    destruct (Hshape u' Hu) as (q1 & v & q2 & -> & H1 & H2 & Hv).
    exists q1, v, q2, ws. repeat split; try assumption.
    left. split; assumption.
  - destruct (Hshape u Hu) as (q1 & v & q2 & -> & H1 & H2 & Hv).
    exists q1, v, q2, rest. repeat split; try assumption.
    right. exact Hrest.
Qed.

(** C2, as stated, fails on three counts.  A release file whose [ID]
    is written with a capital letter is answered with the capital
    letter, not with the lowercase form.  A value between single quotes
    keeps them: only double quotes are removed.  And a release file
    that exists but cannot be opened makes the function raise. *)
Lemma get_distribution_keeps_case_and_quotes :
  (fst (_get_distribution (host (Some (id_line "Ubuntu")) obliging))
   = Ok "Ubuntu" /\
   lower "Ubuntu" = "ubuntu" /\
   fst (_get_distribution (host (Some (id_line "Ubuntu")) obliging))
   <> Ok (lower "Ubuntu")) /\
  (fst (_get_distribution (host (Some (id_line "'ubuntu'")) obliging))
   = Ok "'ubuntu'" /\
   fst (_get_distribution (host (Some (id_line "'ubuntu'")) obliging))
   <> Ok "ubuntu") /\
  fst (_get_distribution (locked obliging))
  = Raise (Exn PermissionError "/etc/os-release").
Proof.
  split; [|split].
  - split; [reflexivity|]. split; [reflexivity|]. discriminate.
  - split; [reflexivity|]. discriminate.
  - reflexivity.
Qed.

(** C2, amended: [_get_distribution] leaves the world as it is.  It
    answers ["unknown"] when the release file is absent, and when the
    file is read to its end without a line that starts with [ID=].  It
    raises only when the reading of the file fails before the
    iteration has yielded such a line, and then with the exception of
    that failure.  Otherwise
    the first line that starts with [ID=] decides, whatever follows it:
    the answer is what stands between [ID=] and the white space that
    ends the line, or a second equals sign if there is one, with the
    double quotes at its two ends removed; letter case and single
    quotes are kept.  Every line that starts with [ID=] can be read in
    this way. *)
Theorem get_distribution_unquoted (w : world) :
  snd (_get_distribution w) = w /\
  (os_release w = None -> fst (_get_distribution w) = Ok "unknown") /\
  (forall content,
     os_release w = Some content ->
     Forall no_id (file_lines content) ->
     fst (_get_distribution w)
     = match release_fault w with
       | Some e => Raise e
       | None => Ok "unknown"
       end) /\
  (forall e,
     fst (_get_distribution w) = Raise e ->
     release_fault w = Some e /\
     exists content,
       os_release w = Some content /\ Forall no_id (file_lines content)) /\
  (forall content pre post q1 v q2 tail,
     os_release w = Some content ->
     file_lines content
     = (pre ++ ("ID=" ++ (q1 ++ v ++ q2) ++ tail)%string :: post)%list ->
     Forall no_id pre ->
     quotes q1 = true -> quotes q2 = true -> unquoted v = true ->
     blank tail = true /\ ends_in isspace (q1 ++ v ++ q2) = false \/
     begins_in (Ascii.eqb "="%char) tail = true ->
     _get_distribution w = (Ok v, w)) /\
  (forall line,
     startswith line "ID=" = true ->
     exists q1 v q2 tail,
       line = "ID=" ++ (q1 ++ v ++ q2) ++ tail /\
       quotes q1 = true /\ quotes q2 = true /\ unquoted v = true /\
       (blank tail = true /\ ends_in isspace (q1 ++ v ++ q2) = false \/
        begins_in (Ascii.eqb "="%char) tail = true)).
Proof.
  unfold _get_distribution.
  split; [|split; [|split; [|split; [|split; [|exact id_line_shape]]]]].
  - destruct (os_release w); reflexivity.
  - intros ->. reflexivity.
  - intros content -> H. cbn [fst]. apply scan_lines_no_id, H.
  - intros e. destruct (os_release w) as [content|]; [|discriminate].
    cbn [fst]. intros [Hf Hlines]%scan_lines_raises.
    split; [exact Hf|]. exists content. split; [reflexivity|exact Hlines].
  - intros content pre post q1 v q2 tail -> Hlines Hpre H1 H2 Hv Htail.
    rewrite Hlines, (scan_lines_skip _ _ _ Hpre).
    rewrite (scan_lines_first _ q1 v q2 tail post H1 H2 Hv Htail).
    reflexivity.
Qed.

Lemma get_distribution_unquoted_witness :
  let content :=
    "NAME=Ubuntu" ++ String CR (String LF EmptyString)
    ++ id_line (quoted "Ubuntu") ++ "VERSION_ID=22.04" in
  let w := host (Some content) obliging in
  _get_distribution w = (Ok "Ubuntu", w).
Proof.
  intros content w.
  apply (proj1 (proj2 (proj2 (proj2 (proj2
                  (get_distribution_unquoted w)))))
           content ["NAME=Ubuntu" ++ String LF EmptyString]
           ["VERSION_ID=22.04"]
           (String QUOTE EmptyString) "Ubuntu" (String QUOTE EmptyString)
           (String LF EmptyString)).
  - reflexivity.
  - reflexivity.
  - repeat constructor.
  - reflexivity.
  - reflexivity.
  - reflexivity.
  - left. split; reflexivity.
Defined.

Lemma succeeds_exited status stdout :
  bool_decide (status = 0) = succeeds (Exited status stdout).
Proof. reflexivity. Qed.

(** C6: on a Debian-family host without [--clean], [run] issues
    [apt update] and, only if that succeeded, the upgrade command
    ([full-upgrade] under [--full]) and nothing else: two commands in
    that order when the update succeeds, the update alone and the
    answer [False] when it fails. *)
Theorem run_apt_update_then_upgrade (self : updater) (w : world) :
  in_tuple (distrib_id self) ["debian"; "ubuntu"; "linuxmint"] = true ->
  clean self = false ->
  let update := ["apt"; "update"] in
  let upgrade :=
    ["apt"; if full_upgrade self then "full-upgrade" else "upgrade"; "-y"] in
  let updated := succeeds (exec w (trace w) update) in
  let upgraded := succeeds (exec w (trace w ++ [update]) upgrade) in
  trace (snd (run self w))
  = (trace w ++ if updated then [update; upgrade] else [update])%list /\
  fst (run self w) = Ok (updated && upgraded) /\
  (updated = false -> fst (run self w) = Ok false).
Proof.
  intros Hid Hclean update upgrade updated upgraded.
  subst updated upgraded update upgrade.
  unfold run. rewrite Hid, Hclean.
  unfold _apt_update, _apt_upgrade, _run_command, bind, try_catch,
    logger_info, logger_error, log, ret.
  cbn [os_release exec trace logs fst snd].
  destruct (exec w (trace w) ["apt"; "update"]) as [st1 out1|e1];
    cbn [succeeds fst snd negb andb trace].
  2: { repeat split; reflexivity. }
  destruct (bool_decide (st1 = 0));
    cbn [fst snd negb andb trace os_release exec logs].
  2: { repeat split; reflexivity. }
  destruct (full_upgrade self);
    match goal with
    | |- context [exec w ?t ?c] =>
        destruct (exec w t c) as [st2 out2|e2]
    end;
    cbn [succeeds fst snd negb andb trace];
    try destruct (bool_decide (st2 = 0));
    cbn [fst snd negb andb trace os_release exec logs];
    rewrite <- ?app_assoc; repeat split; try reflexivity; discriminate.
Qed.

Lemma run_apt_update_then_upgrade_witness :
  let self := Updater false false "ubuntu" in
  (trace (snd (run self (host None obliging)))
   = [["apt"; "update"]; ["apt"; "upgrade"; "-y"]] /\
   fst (run self (host None obliging)) = Ok true) /\
  (trace (snd (run self (host None offline))) = [["apt"; "update"]] /\
   fst (run self (host None offline)) = Ok false).
Proof.
  intros self. split.
  - destruct (run_apt_update_then_upgrade self (host None obliging))
      as (Ht & Hr & _); [reflexivity | reflexivity |].
    split; [exact Ht | exact Hr].
  - destruct (run_apt_update_then_upgrade self (host None offline))
      as (Ht & Hr & _); [reflexivity | reflexivity |].
    split; [exact Ht | exact Hr].
Defined.

Lemma run_unsupported (self : updater) (w : world) :
  in_tuple (distrib_id self) supported = false ->
  run self w
  = (Ok false,
     World (os_release w) (release_fault w) (exec w) (trace w)
       (logs w ++ [(INFO, MsgDetected (distrib_id self));
                   (ERROR, MsgUnsupported)])).
Proof.
  intros H.
  change supported
    with (["debian"; "ubuntu"; "linuxmint"]
          ++ ["fedora"; "centos"; "rhel"])%list in H.
  rewrite in_tuple_app in H. apply orb_false_iff in H as [H1 H2].
  unfold run. rewrite H1, H2.
  unfold bind, try_catch, logger_info, logger_error, log, ret.
  cbn [os_release exec trace logs]. rewrite <- app_assoc. reflexivity.
Qed.

Lemma get_distribution_pure w id :
  fst (_get_distribution w) = Ok id -> _get_distribution w = (Ok id, w).
Proof.
  unfold _get_distribution.
  destruct (os_release w); cbn [fst]; intros ->; reflexivity.
Qed.

Lemma main_detected full clean w id :
  fst (_get_distribution w) = Ok id ->
  main full clean w
  = match run (Updater full clean id) w with
    | (Ok ok, w') => (Ok (if ok then 0 else 1), w')
    | (Raise e, w') => (Raise e, w')
    end.
Proof.
  intros H%get_distribution_pure.
  unfold main, SystemUpdater, bind, ret. rewrite H. reflexivity.
Qed.

(** C7: for a distribution id outside the six supported ones, [run]
    logs the unsupported-distribution error and answers [False] without
    issuing a command, and the script ends with status 1.  The id
    ["unknown"] that the detector falls back to is such an id. *)
Theorem unsupported_distribution_fails (full clean : bool) (w : world)
    (id : string) :
  in_tuple id supported = false ->
  (let self := Updater full clean id in
   fst (run self w) = Ok false /\
   trace (snd (run self w)) = trace w /\
   logs (snd (run self w))
   = (logs w ++ [(INFO, MsgDetected id); (ERROR, MsgUnsupported)])%list) /\
  (fst (_get_distribution w) = Ok id ->
   exit_status (fst (main full clean w)) = 1 /\
   trace (snd (main full clean w)) = trace w /\
   In (ERROR, MsgUnsupported) (logs (snd (main full clean w)))) /\
  in_tuple "unknown" supported = false.
Proof.
  intros Hid. split; [|split; [|reflexivity]].
  - cbv zeta. rewrite run_unsupported by exact Hid. repeat split.
  - intros Hget. rewrite (main_detected full clean w id Hget).
    rewrite run_unsupported by exact Hid.
    cbn. repeat split. apply in_or_app. right. right. left. reflexivity.
Qed.

Lemma unsupported_distribution_fails_witness :
  exit_status (fst (main false true (host (Some (id_line "arch")) obliging)))
  = 1 /\
  trace (snd (main false true (host (Some (id_line "arch")) obliging))) = [].
Proof.
  destruct (unsupported_distribution_fails false true
              (host (Some (id_line "arch")) obliging) "arch")
    as (_ & H & _); [reflexivity|].
  destruct H as (Hs & Ht & _); [reflexivity|].
  split; [exact Hs | exact Ht].
Defined.

End UpdateLinuxFacts.

(** ** The backup script: configuration *)

Section LoadConfigFacts.
Import Py Backup.

Lemma lookup_setdefault k v (d : gmap string pyval) k' :
  setdefault k v d !! k'
  = if decide (k = k') then Some (default v (d !! k)) else d !! k'.
Proof.
  unfold setdefault. destruct (d !! k) as [x|] eqn:E.
  - destruct (decide (k = k')) as [<-|]; [rewrite E|]; reflexivity.
  - rewrite lookup_insert. destruct (decide (k = k')); reflexivity.
Qed.

Lemma setdefault_subseteq k v (d : gmap string pyval) :
  d ⊆ setdefault k v d.
Proof.
  unfold setdefault. destruct (d !! k) eqn:E; [reflexivity|].
  apply insert_subseteq, E.
Qed.

Lemma dom_setdefault k v (d : gmap string pyval) :
  dom (setdefault k v d) = {[k]} ∪ dom d.
Proof.
  unfold setdefault. destruct (d !! k) eqn:E.
  - assert (Hk : k ∈ dom d) by (apply elem_of_dom; eauto).
    apply set_eq. intros x. rewrite elem_of_union, elem_of_singleton.
    split; [tauto|]. intros [->|H]; assumption.
  - apply dom_insert_L.
Qed.

(** The loop over [required_fields] reads the document only. *)
Lemma required_loop_pure (doc : document) (fields : list string) (w : world) :
  snd (for_each fields
         (fun field =>
            present <- lift (contains field doc) ;;
            if negb present
            then raise (Exn ValueError ("Missing required field: " ++ field))
            else ret tt) w) = w.
Proof.
  induction fields as [|f fields IH]; [reflexivity|].
  cbn [for_each]. unfold bind at 1. unfold bind at 1, lift at 1.
  destruct (contains f doc) as [[|]|e]; cbn; [exact IH | reflexivity..].
Qed.

(** On a mapping, the loop succeeds exactly when the three keys are
    there. *)
Lemma required_loop_dict (d : gmap string pyval) (w : world) :
  is_ok (fst (for_each required_fields
                (fun field =>
                   present <- lift (contains field (DocDict d)) ;;
                   if negb present
                   then raise (Exn ValueError
                                 ("Missing required field: " ++ field))
                   else ret tt) w))
  = has_required (DocDict d).
Proof.
  unfold has_required, required_fields. cbn [forallb for_each].
  unfold bind, lift, contains, raise, ret.
  repeat (destruct (bool_decide _); cbn [negb fst is_ok andb];
          try reflexivity).
Qed.

Lemma load_config_pure path w : snd (load_config path w) = w.
Proof.
  unfold load_config, try_catch, bind at 1, safe_load.
  destruct (yaml_at w path) as [doc|e]; [|reflexivity].
  unfold bind at 1.
  pose proof (required_loop_pure doc required_fields w) as Hw.
  destruct (for_each _ _ w) as [[[]|e] w']; cbn [snd] in Hw; subst w';
    [|reflexivity].
  unfold bind, lift. destruct (dict_of doc); reflexivity.
Qed.

Lemma load_config_raises_ConfigError path w e :
  fst (load_config path w) = Raise e -> ConfigError e.
Proof.
  unfold load_config, try_catch.
  match goal with
  | |- context [bind ?c ?k w] => destruct (bind c k w) as [[c'|e'] w']
  end; cbn; [discriminate|].
  intros [= <-]. eexists. reflexivity.
Qed.

(** C3: [load_config] leaves the world as it is.  When the file cannot
    be read or parsed, or when the document is not a mapping that has
    all of [backup_root], [min_free_space_gb] and [max_backups], it
    raises a [ConfigError] and returns nothing.  On a mapping with the
    three keys it returns that mapping, every key with its value, and
    [source_dir], [log_level], [max_logs] set to [None], ["INFO"], [5]
    where they were absent. *)
Theorem load_config_required_and_defaults (path : string) (w : world) :
  snd (load_config path w) = w /\
  (forall e,
     yaml_at w path = Raise e ->
     exists e', fst (load_config path w) = Raise e' /\ ConfigError e') /\
  (forall doc,
     yaml_at w path = Ok doc ->
     has_required doc = false ->
     exists e', fst (load_config path w) = Raise e' /\ ConfigError e') /\
  (forall d,
     yaml_at w path = Ok (DocDict d) ->
     has_required (DocDict d) = true ->
     exists c,
       fst (load_config path w) = Ok c /\
       d ⊆ c /\
       dom c = dom d ∪ {["source_dir"; "log_level"; "max_logs"]} /\
       c !! "source_dir" = Some (default PNone (d !! "source_dir")) /\
       c !! "log_level" = Some (default (PStr "INFO") (d !! "log_level")) /\
       c !! "max_logs" = Some (default (PInt 5) (d !! "max_logs"))).
Proof.
  split; [apply load_config_pure|].
  assert (Hfail : forall r,
            fst (load_config path w) = r -> is_ok r = false ->
            exists e', fst (load_config path w) = Raise e' /\ ConfigError e').
  { intros [c|e'] Hr; [discriminate|]. intros _. exists e'.
    split; [exact Hr|]. eapply load_config_raises_ConfigError, Hr. }
  repeat split.
  - intros e He. eapply Hfail; [reflexivity|].
    unfold load_config, try_catch, bind at 1, safe_load. rewrite He.
    reflexivity.
  - intros doc Hdoc Hreq. eapply Hfail; [reflexivity|].
    unfold load_config, try_catch, bind at 1, safe_load. rewrite Hdoc.
    unfold bind at 1.
    destruct doc as [v|l|d].
    + destruct (for_each _ _ w) as [[[]|e] w']; [|reflexivity].
      reflexivity.
    + destruct (for_each _ _ w) as [[[]|e] w']; [|reflexivity].
      reflexivity.
    + pose proof (required_loop_dict d w) as Hloop. rewrite Hreq in Hloop.
      destruct (for_each _ _ w) as [[[]|e] w']; [discriminate|reflexivity].
  - intros d Hdoc Hreq.
    exists (setdefault "max_logs" (PInt 5)
              (setdefault "log_level" (PStr "INFO")
                 (setdefault "source_dir" PNone d))).
    split; [|split; [|split; [|repeat split]]].
    + unfold load_config, try_catch, bind at 1, safe_load. rewrite Hdoc.
      unfold bind at 1.
      pose proof (required_loop_dict d w) as Hloop. rewrite Hreq in Hloop.
      destruct (for_each _ _ w) as [[[]|e] w']; [reflexivity|discriminate].
    + etrans; [apply (setdefault_subseteq "source_dir" PNone)|].
      etrans; [apply (setdefault_subseteq "log_level" (PStr "INFO"))|].
      apply setdefault_subseteq.
    + rewrite !dom_setdefault. apply set_eq. intros x.
      rewrite !elem_of_union, !elem_of_singleton. tauto.
    + rewrite !lookup_setdefault. reflexivity.
    + rewrite !lookup_setdefault. cbn.
      destruct (d !! "log_level"); reflexivity.
    + rewrite !lookup_setdefault. cbn.
      destruct (d !! "max_logs"); reflexivity.
Qed.

Lemma load_config_required_and_defaults_witness :
  let d : gmap string pyval :=
    {[ "backup_root" := PStr "/srv/backup";
       "min_free_space_gb" := PInt 2;
       "max_backups" := PInt 7;
       "log_level" := PStr "DEBUG" ]} in
  let w :=
    with_yaml "/etc/backup_config.yaml" (DocDict d) (quiet ∅ 0 false) in
  let w' := with_yaml "/etc/backup_config.yaml"
              (DocDict (delete "max_backups" d)) (quiet ∅ 0 false) in
  (exists c,
     fst (load_config DEFAULT_CONFIG_PATH w) = Ok c /\
     c !! "max_logs" = Some (PInt 5) /\
     c !! "log_level" = Some (PStr "DEBUG")) /\
  (exists e,
     fst (load_config DEFAULT_CONFIG_PATH w') = Raise e /\ ConfigError e).
Proof.
  intros d w w'. split.
  - destruct (load_config_required_and_defaults DEFAULT_CONFIG_PATH w)
      as (_ & _ & _ & H).
    destruct (H d) as (c & Hc & _ & _ & _ & Hlevel & Hlogs);
      [reflexivity | reflexivity |].
    exists c. split; [exact Hc|]. split; [exact Hlogs | exact Hlevel].
  - destruct (load_config_required_and_defaults DEFAULT_CONFIG_PATH w')
      as (_ & _ & H & _).
    apply (H (DocDict (delete "max_backups" d))); reflexivity.
Defined.

End LoadConfigFacts.

(** ** Running computations *)

Section MonadFacts.
Import Py.
Context {W : Type}.

Lemma bind_ok {A B} (c : M W A) (k : A -> M W B) w a w' :
  c w = (Ok a, w') -> bind c k w = k a w'.
Proof. unfold bind. intros ->. reflexivity. Qed.

Lemma bind_raise {A B} (c : M W A) (k : A -> M W B) w e w' :
  c w = (Raise e, w') -> bind c k w = (Raise e, w').
Proof. unfold bind. intros ->. reflexivity. Qed.

Lemma try_catch_ok {A} (c : M W A) h w a w' :
  c w = (Ok a, w') -> try_catch c h w = (Ok a, w').
Proof. unfold try_catch. intros ->. reflexivity. Qed.

Lemma try_catch_raise {A} (c : M W A) h w e w' :
  c w = (Raise e, w') -> try_catch c h w = h e w'.
Proof. unfold try_catch. intros ->. reflexivity. Qed.

End MonadFacts.

(** ** The file system *)

Section FileSystemFacts.
Import Py Backup.

Lemma with_dirs_dirs w : with_dirs (dirs w) w = w.
Proof. destruct w. reflexivity. Qed.

Lemma In_place x k e l : In x (place k e l) <-> x = e \/ In x l.
Proof.
  unfold place. rewrite <- (take_drop k l) at 3.
  rewrite !in_app_iff. cbn [In]. intuition congruence.
Qed.

Lemma grown_refl ds : grown ds ds.
Proof. intros d l H. exists l. split; [exact H|tauto]. Qed.

Lemma grown_trans ds1 ds2 ds3 : grown ds1 ds2 -> grown ds2 ds3 -> grown ds1 ds3.
Proof.
  intros H12 H23 d l H.
  destruct (H12 d l H) as (l2 & H2 & Hin2).
  destruct (H23 d l2 H2) as (l3 & H3 & Hin3).
  exists l3. split; [exact H3|]. intros e He. apply Hin3, Hin2, He.
Qed.

(** [mkdir] and [makedirs] touch the directories only, and take
    nothing away. *)
Lemma mkdir_only_dirs p w : mkdir p w = with_dirs (dirs (mkdir p w)) w.
Proof.
  unfold mkdir. destruct (dirs w !! p); [|reflexivity].
  symmetry. apply with_dirs_dirs.
Qed.

Lemma mkdir_grown p w : grown (dirs w) (dirs (mkdir p w)).
Proof.
  unfold mkdir. destruct (dirs w !! p) eqn:Hp; [apply grown_refl|].
  cbn [dirs with_dirs]. intros d l Hd.
  assert (Hne : d <> p) by congruence.
  destruct (dirs w !! dirname p) as [lp|] eqn:Hpar.
  - destruct (find_entry lp (basename p)).
    + exists l. rewrite lookup_insert_ne by congruence. split; [exact Hd|tauto].
    + destruct (decide (d = dirname p)) as [->|Hd'].
      * rewrite lookup_insert_eq. eexists. split; [reflexivity|].
        intros e He. apply In_place. right. congruence.
      * exists l. rewrite !lookup_insert_ne by congruence.
        split; [exact Hd|tauto].
  - exists l. rewrite lookup_insert_ne by congruence. split; [exact Hd|tauto].
Qed.

Lemma mkdir_there p w : is_Some (dirs (mkdir p w) !! p).
Proof.
  unfold mkdir. destruct (dirs w !! p) eqn:Hp; [rewrite Hp; eauto|].
  cbn [dirs with_dirs].
  destruct (dirs w !! dirname p) as [lp|] eqn:Hpar.
  - assert (Hne : dirname p <> p) by congruence.
    destruct (find_entry lp (basename p)).
    + rewrite lookup_insert_eq. eauto.
    + rewrite lookup_insert_ne by exact Hne. rewrite lookup_insert_eq. eauto.
  - rewrite lookup_insert_eq. eauto.
Qed.

Lemma makedirs_rec_only_dirs fuel p w :
  makedirs_rec fuel p w = with_dirs (dirs (makedirs_rec fuel p w)) w.
Proof.
  revert p w. induction fuel as [|fuel IH]; intros p w; cbn [makedirs_rec].
  - apply mkdir_only_dirs.
  - destruct (_ && _); [|apply mkdir_only_dirs].
    rewrite (mkdir_only_dirs p (makedirs_rec fuel (dirname p) w)) at 1.
    rewrite (IH (dirname p) w) at 2. reflexivity.
Qed.

Lemma makedirs_rec_grown fuel p w :
  grown (dirs w) (dirs (makedirs_rec fuel p w)).
Proof.
  revert p w. induction fuel as [|fuel IH]; intros p w; cbn [makedirs_rec].
  - apply mkdir_grown.
  - destruct (_ && _); [|apply mkdir_grown].
    eapply grown_trans; [apply IH|apply mkdir_grown].
Qed.

Lemma makedirs_rec_there fuel p w :
  is_Some (dirs (makedirs_rec fuel p w) !! p).
Proof. destruct fuel; cbn [makedirs_rec]; apply mkdir_there. Qed.

Lemma length_substring_le n s : (String.length (substring 0 n s) <= n)%nat.
Proof.
  revert s. induction n as [|n IH]; intros [|c s]; cbn; try lia.
  specialize (IH s). lia.
Qed.

Lemma length_rstrip_by p s :
  (String.length (rstrip_by p s) <= String.length s)%nat.
Proof.
  induction s as [|c s IH]; cbn [rstrip_by String.length]; [lia|].
  destruct (rstrip_by p s); [destruct (p c)|]; cbn [String.length] in *; lia.
Qed.

(** A parent is shorter than its child. *)
Lemma dirname_shorter p :
  basename p <> EmptyString ->
  (String.length (dirname p) < String.length p)%nat.
Proof.
  intros Hbase. unfold dirname. cbv zeta.
  assert (Hp : (1 <= String.length p)%nat).
  { destruct p; [destruct Hbase; reflexivity|cbn; lia]. }
  assert (Hb : (1 <= String.length (basename p))%nat).
  { destruct (basename p); [destruct Hbase; reflexivity|cbn; lia]. }
  pose proof (length_substring_le
                (String.length p - String.length (basename p)) p) as Hs.
  destruct (all_chars _ _); [lia|].
  pose proof (length_rstrip_by (Ascii.eqb SLASH)
                (substring 0 (String.length p - String.length (basename p))
                   p)) as Hr.
  lia.
Qed.

(** The recursion of [makedirs] never runs out of fuel: more than the
    length of the path changes nothing. *)
Lemma makedirs_rec_fuel n m p w :
  (String.length p <= n)%nat -> (String.length p <= m)%nat ->
  makedirs_rec n p w = makedirs_rec m p w.
Proof.
  revert m p w. induction n as [|n IH]; intros m p w Hn Hm.
  - destruct p; [|cbn in Hn; lia]. destruct m; reflexivity.
  - destruct m as [|m]; [destruct p; [reflexivity|cbn in Hm; lia]|].
    cbn [makedirs_rec].
    destruct (negb (all_chars (Ascii.eqb SLASH) (dirname p))); [|reflexivity].
    destruct (String.eqb_spec (basename p) EmptyString) as [|Hbase];
      [reflexivity|].
    cbn [negb andb].
    destruct (negb (exists_in (dirs w) (dirname p))); [|reflexivity].
    pose proof (dirname_shorter p Hbase).
    rewrite (IH m (dirname p) w) by lia. reflexivity.
Qed.

(** What [makedirs] leaves: the world with more directories. *)
Lemma makedirs_world p w :
  exists ds,
    makedirs p w = (Ok tt, with_dirs ds w) /\
    grown (dirs w) ds /\ is_Some (ds !! p).
Proof.
  exists (dirs (makedirs_rec (String.length p) p w)).
  split; [|split].
  - unfold makedirs. rewrite makedirs_rec_only_dirs at 1. reflexivity.
  - apply makedirs_rec_grown.
  - apply makedirs_rec_there.
Qed.


End FileSystemFacts.

(** ** The backup script: the run *)

Section RunBackupFacts.
Import Py Backup.

Lemma Qltb_lt x y : Qltb x y = true <-> (x < y)%Q.
Proof.
  unfold Qltb. rewrite Qlt_alt. destruct (x ?= y)%Q; split; congruence.
Qed.

Lemma Qltb_ge x y : Qltb x y = false <-> (y <= x)%Q.
Proof.
  rewrite <- not_true_iff_false, Qltb_lt. split.
  - apply Qnot_lt_le.
  - intros H1 H2. exact (Qlt_not_le _ _ H2 H1).
Qed.

Lemma round_b64_small n : n < 2 ^ 53 -> round_b64 n = n.
Proof.
  intros H. unfold round_b64.
  destruct (n <? 2 ^ 53) eqn:E; [reflexivity|].
  apply Z.ltb_ge in E. lia.
Qed.

(** [check_disk_space] on a numeric threshold and an existing root. *)
Lemma check_disk_space_numeric self w root required q :
  config self !! "backup_root" = Some (PStr root) ->
  exists_in (dirs w) root = true ->
  config self !! "min_free_space_gb" = Some required ->
  num_of required = Some q ->
  check_disk_space self w
  = if Qltb (div_gib (free_bytes w)) q
    then (Ok false,
          with_logs (logs w ++ [(ERROR, MsgNoSpace (div_gib (free_bytes w))
                                          required)]) w)
    else (Ok true, w).
Proof.
  intros Hroot Hthere Hreq Hnum.
  unfold check_disk_space, bind, lift, getitem, disk_usage_free, py_lt.
  rewrite Hroot, Hthere, Hreq, Hnum.
  destruct (Qltb _ q); reflexivity.
Qed.

Lemma disk_usage_free_pure p w : snd (disk_usage_free p w) = w.
Proof.
  unfold disk_usage_free.
  destruct p as [|[]|z| |s|]; try reflexivity.
  - destruct (fd_open w 1); reflexivity.
  - destruct (fd_open w 0); reflexivity.
  - destruct (fd_open w z); reflexivity.
  - destruct (exists_in (dirs w) s); reflexivity.
Qed.

Lemma disk_usage_free_frame p w l :
  disk_usage_free p (with_logs l w)
  = (fst (disk_usage_free p w), with_logs l w).
Proof.
  destruct w as [ds fr ck ts af pa sl ya fo lg se].
  unfold disk_usage_free, with_logs. cbn [dirs free_bytes fd_open].
  destruct p as [|[]|z| |s|]; try reflexivity.
  - destruct (fo 1); reflexivity.
  - destruct (fo 0); reflexivity.
  - destruct (fo z); reflexivity.
  - destruct (exists_in ds s); reflexivity.
Qed.

(** What [check_disk_space] answers does not depend on the log, and a
    positive answer leaves the world as it is. *)
Lemma check_disk_space_true self w l :
  fst (check_disk_space self w) = Ok true ->
  check_disk_space self (with_logs l w) = (Ok true, with_logs l w).
Proof.
  unfold check_disk_space, bind, lift, getitem.
  destruct (config self !! "backup_root") as [root|]; [|discriminate].
  rewrite disk_usage_free_frame.
  pose proof (disk_usage_free_pure root w) as Hpure.
  destruct (disk_usage_free root w) as [[free|e] w1];
    cbn [fst snd] in *; subst w1; [|discriminate].
  destruct (config self !! "min_free_space_gb") as [required|];
    [|discriminate].
  destruct (py_lt _ required) as [[|]|]; try discriminate.
  reflexivity.
Qed.

Lemma check_disk_space_false self w l :
  fst (check_disk_space self w) = Ok false ->
  exists m,
    check_disk_space self (with_logs l w)
    = (Ok false, with_logs (l ++ [(ERROR, m)]) w).
Proof.
  unfold check_disk_space, bind, lift, getitem.
  destruct (config self !! "backup_root") as [root|]; [|discriminate].
  rewrite disk_usage_free_frame.
  pose proof (disk_usage_free_pure root w) as Hpure.
  destruct (disk_usage_free root w) as [[free|e] w1];
    cbn [fst snd] in *; subst w1; [|discriminate].
  destruct (config self !! "min_free_space_gb") as [required|];
    [|discriminate].
  destruct (py_lt _ required) as [[|]|]; try discriminate.
  intros _. eexists. reflexivity.
Qed.

Lemma os_path_exists_frame source w b l :
  fst (os_path_exists source w) = Ok b ->
  os_path_exists source (with_logs l w) = (Ok b, with_logs l w).
Proof.
  destruct w as [ds fr ck ts af pa sl ya fo lg se].
  unfold os_path_exists, with_logs. cbn [dirs fd_open].
  destruct source; cbn [fst]; try discriminate; intros [= <-]; reflexivity.
Qed.

(** [run_backup] returns a status; nothing escapes its handler. *)
Lemma run_backup_returns self source w :
  exists status, fst (run_backup self source w) = Ok status.
Proof.
  unfold run_backup, try_catch.
  match goal with
  | |- context [bind ?c ?k w] => destruct (bind c k w) as [[status|e] w']
  end; cbn; eauto.
Qed.

(** A negative answer of the guard ends the run with status 1 and the
    directories as they were. *)
Lemma run_backup_no_space self source w :
  fst (check_disk_space self w) = Ok false ->
  fst (run_backup self source w) = Ok 1 /\
  dirs (snd (run_backup self source w)) = dirs w.
Proof.
  intros H.
  destruct (check_disk_space_false self w
              (logs w ++ [(INFO, MsgBackupStart)]) H) as [m Hm].
  unfold run_backup.
  erewrite try_catch_raise.
  2: { erewrite bind_ok by reflexivity.
       erewrite bind_ok by exact Hm. reflexivity. }
  split; reflexivity.
Qed.

(** C4, as stated, fails on very large volumes.  The free space in GiB
    is a float, the one nearest to the quotient: with [2^54 - 1] bytes
    free, one byte less than 16777216 GiB, the quotient is rounded up
    to 16777216, and the guard lets a threshold of 16777216 pass
    although the free space is below it. *)
Lemma check_disk_space_rounds_up :
  let w := site (2 ^ 54 - 1) in
  let self :=
    Manager (<["min_free_space_gb" := PInt 16777216]>
               (config (nightly (PInt 5))))
            "/srv/backup/backup_files" "/srv/backup/logs"
            "/srv/backup/logs/backup.log" in
  (free_bytes w # 1073741824 < inject_Z 16777216)%Q /\
  fst (check_disk_space self w) = Ok true.
Proof.
  split; [reflexivity|]. vm_compute. reflexivity.
Qed.

(** C4, amended: with an existing backup root, a threshold that is a
    number and fewer than [2^53] bytes free, [check_disk_space] answers
    [True] exactly when the free space in GiB, the exact quotient of
    the byte count by [2^30], is at least the threshold; below it, it
    logs one error naming both values and answers [False], without
    raising.  In every world, whenever the guard answers [False],
    [run_backup] returns 1 and no directory has changed, so no archive
    was written. *)
Theorem check_disk_space_guards_backup (self : manager) (w : world) :
  (forall root required q,
     config self !! "backup_root" = Some (PStr root) ->
     exists_in (dirs w) root = true ->
     config self !! "min_free_space_gb" = Some required ->
     num_of required = Some q ->
     free_bytes w < 2 ^ 53 ->
     let gb := free_bytes w # 1073741824 in
     (exists b, fst (check_disk_space self w) = Ok b /\
                (b = true <-> (q <= gb)%Q)) /\
     ((gb < q)%Q ->
      check_disk_space self w
      = (Ok false,
         with_logs (logs w ++ [(ERROR, MsgNoSpace gb required)]) w))) /\
  (forall source,
     fst (check_disk_space self w) = Ok false ->
     fst (run_backup self source w) = Ok 1 /\
     dirs (snd (run_backup self source w)) = dirs w).
Proof.
  split; [|intros source; apply run_backup_no_space].
  intros root required q Hroot Hthere Hreq Hnum Hsmall gb.
  pose proof (check_disk_space_numeric self w root required q
                Hroot Hthere Hreq Hnum) as Hcheck.
  assert (Hgb : div_gib (free_bytes w) = gb)
    by (unfold gb, div_gib; rewrite round_b64_small by exact Hsmall;
        reflexivity).
  rewrite Hgb in Hcheck. split.
  - destruct (Qltb gb q) eqn:E; rewrite Hcheck.
    + exists false. split; [reflexivity|]. split; [discriminate|].
      intros Hle. apply Qltb_lt in E. destruct (Qlt_not_le _ _ E Hle).
    + exists true. split; [reflexivity|]. split; [|reflexivity].
      intros _. apply Qltb_ge, E.
  - intros Hlt%Qltb_lt. rewrite Hcheck, Hlt. reflexivity.
Qed.

Lemma check_disk_space_guards_backup_witness :
  let w := site (2 ^ 31 - 1) in
  let self := nightly (PInt 5) in
  fst (check_disk_space self w) = Ok false /\
  fst (run_backup self (PStr "/home/data") w) = Ok 1 /\
  dirs (snd (run_backup self (PStr "/home/data") w)) = dirs w.
Proof.
  intros w self.
  destruct (check_disk_space_guards_backup self w) as (Hguard & Habort).
  destruct (Hguard "/srv/backup" (PInt 2) (inject_Z 2)) as (_ & Hlow);
    [reflexivity | vm_compute; reflexivity | reflexivity | reflexivity
     | reflexivity |].
  assert (Hfalse : fst (check_disk_space self w) = Ok false).
  { rewrite Hlow; [reflexivity|]. reflexivity. }
  split; [exact Hfalse|]. apply Habort, Hfalse.
Defined.

(** A missing source, after a passed guard, is logged as a
    [FileNotFoundError] and nothing else happens. *)
Lemma run_backup_missing_source self source w :
  fst (check_disk_space self w) = Ok true ->
  fst (os_path_exists source w) = Ok false ->
  run_backup self source w
  = (Ok 1,
     with_logs
       (logs w ++
        [(INFO, MsgBackupStart);
         (ERROR,
          MsgCritical
            (Exn FileNotFoundError
               ("Source directory does not exist: " ++ py_str source)))])
       w).
Proof.
  intros Hcheck Hsrc. unfold run_backup.
  erewrite try_catch_raise.
  2: { erewrite bind_ok by reflexivity.
       erewrite bind_ok by (apply check_disk_space_true, Hcheck).
       cbn [negb].
       erewrite bind_ok by (apply os_path_exists_frame, Hsrc).
       reflexivity. }
  unfold bind, logger_error, log, ret, with_logs. cbn.
  rewrite <- app_assoc. reflexivity.
Qed.

(** Once the manager is built, the script ends with what [run_backup]
    returns. *)
Lemma main_runs_backup a w c src self w1 :
  fst (load_config (args_config a) w) = Ok c ->
  getitem (override_source a c) "source_dir" = Ok src ->
  truthy src = true ->
  BackupManager (override_source a c) w = (Ok self, w1) ->
  main a w = run_backup self src w1.
Proof.
  intros Hload Hsrc Htruthy Hinit.
  assert (Hload' : load_config (args_config a) w = (Ok c, w)).
  { rewrite (surjective_pairing (load_config _ w)), Hload,
      load_config_pure. reflexivity. }
  destruct (run_backup_returns self src w1) as [status Hstatus].
  assert (Hrun : run_backup self src w1
                 = (Ok status, snd (run_backup self src w1))).
  { rewrite <- Hstatus. apply surjective_pairing. }
  rewrite Hrun. unfold main. apply try_catch_ok.
  erewrite bind_ok by exact Hload'. cbv zeta.
  erewrite bind_ok by (unfold lift; rewrite Hsrc; reflexivity).
  rewrite Htruthy. cbn [negb].
  erewrite bind_ok by exact Hinit. exact Hrun.
Qed.

(** C5: when the guard passes and the source directory does not exist,
    [run_backup] raises [FileNotFoundError] (the specification's
    [SourceNotFoundError]) into its own handler, which logs it: the
    run returns 1 with every directory as it was, hence without an
    archive, and a script that got as far as [run_backup] exits with
    status 1. *)
Theorem missing_source_aborts (self : manager) (src : pyval) (w1 : world) :
  fst (check_disk_space self w1) = Ok true ->
  fst (os_path_exists src w1) = Ok false ->
  (fst (run_backup self src w1) = Ok 1 /\
   dirs (snd (run_backup self src w1)) = dirs w1 /\
   exists msg,
     logs (snd (run_backup self src w1))
     = (logs w1 ++ [(INFO, MsgBackupStart);
                    (ERROR, MsgCritical (Exn FileNotFoundError msg))])%list) /\
  (forall a w c,
     fst (load_config (args_config a) w) = Ok c ->
     getitem (override_source a c) "source_dir" = Ok src ->
     truthy src = true ->
     BackupManager (override_source a c) w = (Ok self, w1) ->
     fst (main a w) = Ok 1 /\ dirs (snd (main a w)) = dirs w1).
Proof.
  intros Hcheck Hsrc.
  pose proof (run_backup_missing_source self src w1 Hcheck Hsrc) as Hrun.
  split.
  - rewrite Hrun. repeat split. eexists. reflexivity.
  - intros a w c Hload Hget Htruthy Hinit.
    rewrite (main_runs_backup a w c src self w1 Hload Hget Htruthy Hinit).
    rewrite Hrun. split; reflexivity.
Qed.

Lemma missing_source_aborts_witness :
  let w := site (2 ^ 40) in
  let self := nightly (PInt 5) in
  fst (run_backup self (PStr "/home/nobody") w) = Ok 1 /\
  dirs (snd (run_backup self (PStr "/home/nobody") w)) = dirs w.
Proof.
  intros w self.
  destruct (missing_source_aborts self (PStr "/home/nobody") w)
    as ((Hstatus & Hdirs & _) & _);
    [vm_compute; reflexivity | vm_compute; reflexivity |].
  split; [exact Hstatus | exact Hdirs].
Defined.

(** The handler of [cleanup_old_files] returns: the call never
    raises. *)
Lemma cleanup_old_files_returns d ext n w :
  cleanup_old_files d ext n w = (Ok tt, snd (cleanup_old_files d ext n w)).
Proof.
  unfold cleanup_old_files, try_catch.
  destruct (cleanup_attempt d ext n w) as [[[]|e] w']; reflexivity.
Qed.

Lemma cleanup_old_files_logs_failure d ext n w e w1 :
  cleanup_attempt d ext n w = (Raise e, w1) ->
  cleanup_old_files d ext n w
  = (Ok tt, with_logs (logs w1 ++ [(ERROR, MsgCleanupError e)]) w1).
Proof.
  intros H. unfold cleanup_old_files.
  erewrite try_catch_raise by exact H. reflexivity.
Qed.

(** Creating the backup directory when it is missing cannot fail and
    does not touch the archiver. *)
Lemma ensure_backup_dir_returns (there : bool) (p : string) (w : world) :
  exists w',
    (if negb there then makedirs p ;; logger_info (MsgCreatedDir p)
     else ret tt) w = (Ok tt, w') /\
    archiver_fails w' = archiver_fails w.
Proof.
  destruct there; cbn [negb].
  - exists w. split; reflexivity.
  - destruct (makedirs_world p w) as (ds & Hm & _).
    unfold bind. rewrite Hm. unfold logger_info, log.
    eexists. split; reflexivity.
Qed.

(** With a passed guard, an existing source and a working archiver,
    the run ends with status 0 whatever the two prunings do. *)
Lemma run_backup_completes self source w max_backups max_logs :
  fst (check_disk_space self w) = Ok true ->
  fst (os_path_exists source w) = Ok true ->
  is_ok (os_path_basename source) = true ->
  archiver_fails w = false ->
  config self !! "max_backups" = Some max_backups ->
  config self !! "max_logs" = Some max_logs ->
  fst (run_backup self source w) = Ok 0.
Proof.
  intros Hcheck Hsrc Hbase Harch Hmb Hml.
  destruct source as [| | | |src|]; try discriminate Hbase.
  set (w0 := with_logs (logs w ++ [(INFO, MsgBackupStart)]) w).
  destruct (ensure_backup_dir_returns
              (exists_in (dirs w0) (backup_dir self)) (backup_dir self) w0)
    as (w1 & Hdir & Harch1).
  unfold run_backup.
  erewrite try_catch_ok; [reflexivity|].
  erewrite bind_ok by reflexivity. fold w0.
  erewrite bind_ok by (apply check_disk_space_true, Hcheck). cbn [negb].
  erewrite bind_ok by (apply os_path_exists_frame, Hsrc). cbn [negb].
  erewrite bind_ok by reflexivity.
  erewrite bind_ok by exact Hdir.
  erewrite bind_ok by reflexivity.
  erewrite bind_ok by reflexivity. cbv zeta.
  erewrite bind_ok by reflexivity.
  erewrite bind_ok.
  2: { unfold make_archive, logger_info, log.
       cbn [archiver_fails with_logs]. rewrite Harch1.
       replace (archiver_fails w0) with false by (symmetry; exact Harch).
       reflexivity. }
  erewrite bind_ok by (unfold lift, getitem; rewrite Hmb; reflexivity).
  erewrite bind_ok by apply cleanup_old_files_returns.
  erewrite bind_ok by (unfold lift, getitem; rewrite Hml; reflexivity).
  erewrite bind_ok by apply cleanup_old_files_returns.
  erewrite bind_ok by reflexivity.
  reflexivity.
Qed.

(** C9: [cleanup_old_files] never raises; whatever its [try] block
    raises, while listing, reading time stamps, comparing or deleting,
    ends up as one logged error.  So once the archive is written,
    [run_backup] returns 0 for every value of [max_backups] and
    [max_logs] and every content of the two directories, however the
    two prunings fare. *)
Theorem pruner_failures_are_not_fatal :
  (forall d ext n w, fst (cleanup_old_files d ext n w) = Ok tt) /\
  (forall d ext n w e w1,
     cleanup_attempt d ext n w = (Raise e, w1) ->
     cleanup_old_files d ext n w
     = (Ok tt, with_logs (logs w1 ++ [(ERROR, MsgCleanupError e)]) w1)) /\
  (forall self source w max_backups max_logs,
     fst (check_disk_space self w) = Ok true ->
     fst (os_path_exists source w) = Ok true ->
     is_ok (os_path_basename source) = true ->
     archiver_fails w = false ->
     config self !! "max_backups" = Some max_backups ->
     config self !! "max_logs" = Some max_logs ->
     fst (run_backup self source w) = Ok 0).
Proof.
  split; [|split].
  - intros d ext n w. rewrite cleanup_old_files_returns. reflexivity.
  - exact cleanup_old_files_logs_failure.
  - exact run_backup_completes.
Qed.

Lemma pruner_failures_are_not_fatal_witness :
  let w := site (2 ^ 40) in
  let self := nightly (PStr "five") in
  fst (run_backup self (PStr "/home/data") w) = Ok 0.
Proof.
  intros w self.
  apply (proj2 (proj2 pruner_failures_are_not_fatal)
           self (PStr "/home/data") w (PInt 1) (PStr "five"));
    first [reflexivity | vm_compute; reflexivity].
Defined.

End RunBackupFacts.

(** ** Sorting and slicing *)

Section SortFacts.
Import Py.
Context {A : Type} (key : A -> Z).

Lemma insert_by_perm x l : Permutation (insert_by key x l) (x :: l).
Proof.
  induction l as [|y l IH]; cbn; [reflexivity|].
  destruct (key x <=? key y); [reflexivity|].
  rewrite IH. apply perm_swap.
Qed.

Lemma sort_by_perm l : Permutation (sort_by key l) l.
Proof.
  induction l as [|x l IH]; cbn; [reflexivity|].
  rewrite insert_by_perm, IH. reflexivity.
Qed.

Lemma sort_by_length l : length (sort_by key l) = length l.
Proof. apply Permutation_length, sort_by_perm. Qed.

Lemma sort_by_In x l : In x (sort_by key l) <-> In x l.
Proof.
  split; apply Permutation_in; [|symmetry]; apply sort_by_perm.
Qed.

Lemma insert_by_ascending x l :
  ascending key l -> ascending key (insert_by key x l).
Proof.
  induction 1 as [|y l Hl IH Hy]; cbn.
  - repeat constructor.
  - destruct (key x <=? key y) eqn:E.
    + apply Z.leb_le in E. constructor; [constructor; assumption|].
      constructor; [exact E|].
      eapply List.Forall_impl; [|exact Hy]. cbn. intros z Hz. lia.
    + apply Z.leb_gt in E. constructor; [exact IH|].
      eapply Permutation_Forall; [symmetry; apply insert_by_perm|].
      constructor; [lia | exact Hy].
Qed.

Lemma sort_by_ascending l : ascending key (sort_by key l).
Proof.
  induction l as [|x l IH]; cbn; [constructor|].
  apply insert_by_ascending, IH.
Qed.

(** In an ascending list, what comes first is not newer than what
    comes later. *)
Lemma ascending_app l1 l2 :
  ascending key (l1 ++ l2) ->
  forall x y, In x l1 -> In y l2 -> key x <= key y.
Proof.
  induction l1 as [|a l1 IH]; cbn; [intros _ x y []|].
  intros H x y [<-|Hx] Hy; inversion_clear H as [|? ? Hs Ha].
  - rewrite List.Forall_forall in Ha. apply Ha, in_or_app. right. exact Hy.
  - exact (IH Hs x y Hx Hy).
Qed.

(** Filtering commutes with the stable sort. *)
Lemma filter_insert_by_out p x l :
  p x = false ->
  List.filter p (insert_by key x l) = List.filter p l.
Proof.
  intros Hx. induction l as [|y l IH]; cbn; [rewrite Hx; reflexivity|].
  destruct (key x <=? key y); cbn; [rewrite Hx; reflexivity|].
  rewrite IH. reflexivity.
Qed.

Lemma insert_by_below x l :
  Forall (fun y => key x <= key y) l -> insert_by key x l = x :: l.
Proof.
  destruct 1 as [|y l Hy _]; cbn; [reflexivity|].
  apply Z.leb_le in Hy. rewrite Hy. reflexivity.
Qed.

Lemma filter_insert_by_in p x l :
  ascending key l -> p x = true ->
  List.filter p (insert_by key x l) = insert_by key x (List.filter p l).
Proof.
  intros Hl Hx. induction Hl as [|y l Hl IH Hy].
  - cbn. rewrite Hx. reflexivity.
  - cbn [insert_by]. destruct (key x <=? key y) eqn:E.
    + set (fl := List.filter p (y :: l)).
      change (List.filter p (x :: y :: l))
        with (if p x then x :: fl else fl).
      rewrite Hx. symmetry. apply insert_by_below.
      apply Z.leb_le in E.
      assert (Hall : Forall (fun z => key x <= key z) (y :: l)).
      { constructor; [exact E|].
        eapply List.Forall_impl; [|exact Hy]. cbn. intros z Hz. lia. }
      rewrite List.Forall_forall in *. intros z Hz.
      apply Hall. apply filter_In in Hz as [Hz _]. exact Hz.
    + cbn [List.filter]. destruct (p y); [|exact IH].
      cbn [insert_by]. rewrite E, IH. reflexivity.
Qed.

Lemma filter_ascending p l :
  ascending key l -> ascending key (List.filter p l).
Proof.
  induction 1 as [|y l Hl IH Hy]; cbn; [constructor|].
  destruct (p y); [|exact IH]. constructor; [exact IH|].
  rewrite List.Forall_forall in *. intros z Hz.
  apply Hy. apply filter_In in Hz as [Hz _]. exact Hz.
Qed.

Lemma sort_by_filter p l :
  sort_by key (List.filter p l) = List.filter p (sort_by key l).
Proof.
  induction l as [|x l IH]; cbn; [reflexivity|].
  destruct (p x) eqn:Hx.
  - cbn [sort_by]. rewrite IH. symmetry.
    apply filter_insert_by_in; [apply sort_by_ascending | exact Hx].
  - rewrite IH. symmetry. apply filter_insert_by_out, Hx.
Qed.

End SortFacts.

Section SliceFacts.
Import Py.
Context {A B : Type}.

Lemma insert_by_map (f : A -> B) (key : B -> Z) x l :
  insert_by key (f x) (map f l)
  = map f (insert_by (fun a => key (f a)) x l).
Proof.
  induction l as [|y l IH]; cbn; [reflexivity|].
  destruct (key (f x) <=? key (f y)); cbn; [reflexivity|].
  rewrite IH. reflexivity.
Qed.

Lemma sort_by_map (f : A -> B) (key : B -> Z) l :
  sort_by key (map f l) = map f (sort_by (fun a => key (f a)) l).
Proof.
  induction l as [|x l IH]; cbn; [reflexivity|].
  rewrite IH. apply insert_by_map.
Qed.

Lemma slice_to_map (f : A -> B) l stop :
  slice_to (map f l) stop = map f (slice_to l stop).
Proof.
  unfold slice_to. rewrite length_map. apply firstn_map.
Qed.

Lemma slice_to_zero (l : list A) : slice_to l (- 0) = [].
Proof. unfold slice_to. cbn. destruct l; reflexivity. Qed.

Lemma slice_to_neg (l : list A) n :
  0 < n -> slice_to l (- n) = take (length l - Z.to_nat n) l.
Proof.
  intros Hn. unfold slice_to.
  destruct (- n <? 0) eqn:E; [|apply Z.ltb_ge in E; lia].
  f_equal. lia.
Qed.

Lemma slice_to_In (l : list A) stop x : In x (slice_to l stop) -> In x l.
Proof.
  unfold slice_to. intros H.
  rewrite <- (firstn_skipn (Z.to_nat
    (if stop <? 0 then Z.max 0 (Z.of_nat (length l) + stop)
     else Z.min stop (Z.of_nat (length l)))) l).
  apply in_or_app. left. exact H.
Qed.

End SliceFacts.

(** ** The backup script: pruning *)

Section PruneFacts.
Import Py Backup.

Lemma filter_filter {A} (p q : A -> bool) l :
  List.filter p (List.filter q l) = List.filter (fun x => q x && p x) l.
Proof.
  induction l as [|x l IH]; cbn; [reflexivity|].
  destruct (q x); cbn; [|exact IH].
  destruct (p x); rewrite IH; reflexivity.
Qed.

Lemma filter_all {A} (p : A -> bool) l :
  (forall x, In x l -> p x = true) -> List.filter p l = l.
Proof.
  induction l as [|x l IH]; cbn; [reflexivity|]. intros H.
  rewrite (H x) by (left; reflexivity).
  rewrite IH by (intros y Hy; apply H; right; exact Hy). reflexivity.
Qed.

Lemma filter_none {A} (p : A -> bool) l :
  (forall x, In x l -> p x = false) -> List.filter p l = [].
Proof.
  induction l as [|x l IH]; cbn; [reflexivity|]. intros H.
  rewrite (H x) by (left; reflexivity).
  apply IH. intros y Hy. apply H. right. exact Hy.
Qed.

Lemma NoDup_map_filter {A B} (f : A -> B) (p : A -> bool) l :
  List.NoDup (map f l) -> List.NoDup (map f (List.filter p l)).
Proof.
  induction l as [|x l IH]; cbn; [trivial|].
  intros H. apply List.NoDup_cons_iff in H as [Hx Hl].
  destruct (p x); [|exact (IH Hl)].
  cbn. apply List.NoDup_cons_iff. split; [|exact (IH Hl)].
  intros Hin. apply Hx. apply in_map_iff in Hin as (y & Hy & Hin).
  apply filter_In in Hin as [Hin _]. apply in_map_iff. eauto.
Qed.

Lemma keep_out_nil e : keep_out [] e = true.
Proof. reflexivity. Qed.

Lemma keep_out_cons g gone e :
  keep_out (g :: gone) e
  = negb (String.eqb (name e) (name g)) && keep_out gone e.
Proof. unfold keep_out. cbn. apply negb_orb. Qed.

Lemma keep_out_In gone e : In e gone -> keep_out gone e = false.
Proof.
  intros H. unfold keep_out. apply negb_false_iff, existsb_exists.
  exists e. split; [exact H | apply String.eqb_refl].
Qed.

Lemma keep_out_fresh gone e :
  ~ In (name e) (map name gone) -> keep_out gone e = true.
Proof.
  intros H. unfold keep_out. apply negb_true_iff.
  apply not_true_iff_false. intros (g & Hg & E)%existsb_exists.
  apply String.eqb_eq in E. apply H. rewrite E. apply in_map, Hg.
Qed.

(** What is left after the removals is the listing without the names
    of the removed entries. *)
Lemma remove_until_filter ev l :
  remove_until ev l = List.filter (keep_out (removable ev)) l.
Proof.
  revert l. induction ev as [|e ev IH]; intros l; cbn.
  - symmetry. apply filter_all. reflexivity.
  - destruct (is_subdir e).
    + symmetry. apply filter_all. reflexivity.
    + rewrite IH. unfold drop_entry. rewrite filter_filter.
      apply List.filter_ext. intros x. rewrite keep_out_cons. reflexivity.
Qed.

Lemma removable_regular ev :
  forallb is_regular ev = true -> removable ev = ev.
Proof.
  induction ev as [|e ev IH]; cbn; [reflexivity|].
  intros [He Hev]%andb_true_iff. unfold is_subdir, is_regular in *.
  destruct (kind_of e); try discriminate. rewrite (IH Hev). reflexivity.
Qed.


Lemma filter_keep_out_prefix gone rest :
  List.NoDup (map name (gone ++ rest)) ->
  List.filter (keep_out gone) (gone ++ rest) = rest.
Proof.
  intros H. rewrite List.filter_app.
  rewrite (filter_none (keep_out gone) gone)
    by (intros x Hx; apply keep_out_In, Hx).
  cbn. apply filter_all. intros x Hx. apply keep_out_fresh.
  rewrite map_app in H. intros Hin.
  revert H Hin. generalize (map name gone). intros names.
  induction names as [|a names IH]; cbn; [tauto|].
  intros H [->|Hin]; apply List.NoDup_cons_iff in H as [Ha H].
  - apply Ha, in_or_app. right. apply in_map, Hx.
  - exact (IH H Hin).
Qed.

Lemma matching_filter ext p l :
  matching ext (List.filter p l) = List.filter p (matching ext l).
Proof.
  unfold matching. rewrite !filter_filter. apply List.filter_ext.
  intros x. apply andb_comm.
Qed.

Lemma matching_names ext l :
  List.filter (fun f => endswith f ext) (map name l)
  = map name (matching ext l).
Proof. unfold matching. apply filter_map_swap. Qed.

Lemma matching_In ext l e : In e (matching ext l) -> In e l.
Proof. unfold matching. intros [H _]%filter_In. exact H. Qed.

(** *** The file system calls on a listed entry *)

Lemma find_entry_In l e :
  List.NoDup (map name l) -> In e l -> find_entry l (name e) = Some e.
Proof.
  unfold find_entry. induction l as [|a l IH]; cbn; [tauto|].
  intros H Hin. apply List.NoDup_cons_iff in H as [Ha Hl].
  destruct (String.eqb (name a) (name e)) eqn:E.
  - apply String.eqb_eq in E. destruct Hin as [->|Hin]; [reflexivity|].
    destruct Ha. rewrite E. apply in_map, Hin.
  - destruct Hin as [->|Hin]; [|exact (IH Hl Hin)].
    rewrite String.eqb_refl in E. discriminate.
Qed.

Lemma getmtime_In d l e w :
  dirs w !! d = Some l -> List.NoDup (map name l) -> In e l ->
  getmtime d (name e) w
  = if is_broken e
    then (Raise (Exn FileNotFoundError (path_join d (name e))), w)
    else (Ok (mtime e), w).
Proof.
  intros Hd Hl He. unfold getmtime. rewrite Hd. cbn.
  rewrite (find_entry_In l e Hl He). unfold is_broken.
  destruct e as [f [] t]; reflexivity.
Qed.

Lemma remove_In d l e w :
  dirs w !! d = Some l -> List.NoDup (map name l) -> In e l ->
  remove d (name e) w
  = if is_subdir e
    then (Raise (Exn IsADirectoryError (path_join d (name e))), w)
    else (Ok tt, with_dirs (<[d := drop_entry (name e) l]> (dirs w)) w).
Proof.
  intros Hd Hl He. unfold remove. rewrite Hd.
  rewrite (find_entry_In l e Hl He). unfold is_subdir.
  destruct e as [f [] t]; reflexivity.
Qed.

Lemma map_m_getmtime d l m w :
  dirs w !! d = Some l -> List.NoDup (map name l) ->
  (forall e, In e m -> In e l) ->
  if existsb is_broken m
  then exists e, map_m (getmtime d) (map name m) w = (Raise e, w)
  else map_m (getmtime d) (map name m) w = (Ok (map mtime m), w).
Proof.
  intros Hd Hl. induction m as [|e m IH]; intros Hm; [reflexivity|].
  cbn [existsb map map_m].
  pose proof (getmtime_In d l e w Hd Hl (Hm e (or_introl eq_refl))) as He.
  destruct (is_broken e); cbn [orb].
  - eexists. erewrite bind_raise by exact He. reflexivity.
  - specialize (IH (fun x Hx => Hm x (or_intror Hx))).
    erewrite bind_ok by exact He.
    destruct (existsb is_broken m).
    + destruct IH as [e' IH]. exists e'.
      erewrite bind_raise by exact IH. reflexivity.
    + erewrite bind_ok by exact IH. reflexivity.
Qed.

End PruneFacts.

Section CleanupFacts.
Import Py Backup.

Lemma NoDup_app_l {A} (l1 l2 : list A) :
  List.NoDup (l1 ++ l2) -> List.NoDup l1.
Proof.
  induction l1 as [|x l1 IH]; cbn; [constructor|].
  intros H. apply List.NoDup_cons_iff in H as [Hx H].
  apply List.NoDup_cons_iff. split; [|exact (IH H)].
  intros Hin. apply Hx, in_or_app. left. exact Hin.
Qed.

Lemma NoDup_map_slice_to {A B} (f : A -> B) (l : list A) stop :
  List.NoDup (map f l) -> List.NoDup (map f (slice_to l stop)).
Proof.
  unfold slice_to.
  generalize (Z.to_nat (if stop <? 0
                        then Z.max 0 (Z.of_nat (length l) + stop)
                        else Z.min stop (Z.of_nat (length l)))).
  intros k H. rewrite <- (firstn_skipn k l), map_app in H.
  exact (NoDup_app_l _ _ H).
Qed.

Lemma NoDup_names_sorted ext l :
  List.NoDup (map name l) ->
  List.NoDup (map name (sort_by mtime (matching ext l))).
Proof.
  intros H. eapply Permutation_NoDup.
  - apply Permutation_map. symmetry. apply sort_by_perm.
  - unfold matching. apply NoDup_map_filter, H.
Qed.


Lemma zip_names_mtimes (m : list entry) :
  zip (map name m) (map mtime m) = map (fun e => (name e, mtime e)) m.
Proof. induction m as [|e m IH]; cbn; [|rewrite IH]; reflexivity. Qed.

Lemma Qltb_inject_Z a b : Qltb (inject_Z a) (inject_Z b) = (a <? b).
Proof.
  unfold Qltb, Qcompare, Z.ltb. cbn. rewrite !Z.mul_1_r. reflexivity.
Qed.

Lemma sorted_by_mtime_entries d l m w :
  dirs w !! d = Some l -> List.NoDup (map name l) ->
  (forall e, In e m -> In e l) ->
  if existsb is_broken m
  then exists e, sorted_by_mtime d (map name m) w = (Raise e, w)
  else sorted_by_mtime d (map name m) w
       = (Ok (map name (sort_by mtime m)), w).
Proof.
  intros Hd Hl Hm. pose proof (map_m_getmtime d l m w Hd Hl Hm) as H.
  unfold sorted_by_mtime. destruct (existsb is_broken m).
  - destruct H as [e H]. exists e. erewrite bind_raise by exact H.
    reflexivity.
  - erewrite bind_ok by exact H. unfold ret.
    rewrite zip_names_mtimes, sort_by_map, map_map. reflexivity.
Qed.

(** The deletion loop, on entries that are listed under distinct
    names. *)
Lemma for_each_remove_dirs d ev :
  forall lc w,
    dirs w !! d = Some lc ->
    List.NoDup (map name lc) ->
    List.NoDup (map name ev) ->
    (forall e, In e ev -> In e lc) ->
    dirs (snd (for_each (map name ev)
                 (fun old_file =>
                    remove d old_file ;;
                    logger_info (MsgRemovedOld old_file)) w))
    = <[d := remove_until ev lc]> (dirs w).
Proof.
  induction ev as [|e ev IH]; intros lc w Hd Hlc Hev Hin.
  - cbn. symmetry. apply insert_id, Hd.
  - cbn [map for_each remove_until].
    apply List.NoDup_cons_iff in Hev as [He Hev].
    pose proof (remove_In d lc e w Hd Hlc (Hin e (or_introl eq_refl)))
      as Hrm.
    destruct (is_subdir e).
    + erewrite bind_raise by (erewrite bind_raise by exact Hrm; reflexivity).
      cbn. symmetry. apply insert_id, Hd.
    + erewrite bind_ok
        by (erewrite bind_ok by exact Hrm; reflexivity).
      rewrite (IH (drop_entry (name e) lc)).
      * cbn. apply insert_insert_eq.
      * cbn. apply lookup_insert_eq.
      * unfold drop_entry. apply NoDup_map_filter, Hlc.
      * exact Hev.
      * intros x Hx. unfold drop_entry. apply filter_In.
        split; [apply Hin; right; exact Hx|].
        apply negb_true_iff, not_true_iff_false.
        intros E%String.eqb_eq. apply He. rewrite <- E.
        apply in_map, Hx.
Qed.

(** The handler of [cleanup_old_files] only logs. *)
Lemma cleanup_old_files_dirs d ext n w :
  dirs (snd (cleanup_old_files d ext n w))
  = dirs (snd (cleanup_attempt d ext n w)).
Proof.
  unfold cleanup_old_files, try_catch.
  destruct (cleanup_attempt d ext n w) as [[[]|e] w']; reflexivity.
Qed.


(** What [cleanup_old_files] does to a directory with distinct names
    is what [prune] computes from its listing. *)
Lemma cleanup_old_files_prunes d ext n w l :
  dirs w !! d = Some l -> List.NoDup (map name l) ->
  dirs (snd (cleanup_old_files d ext (PInt n) w))
  = <[d := prune ext n l]> (dirs w).
Proof.
  intros Hd Hl. rewrite cleanup_old_files_dirs.
  unfold cleanup_attempt, prune.
  erewrite bind_ok by (unfold listdir; rewrite Hd; reflexivity).
  rewrite matching_names.
  pose proof (sorted_by_mtime_entries d l (matching ext l) w Hd Hl
                (matching_In ext l)) as Hs.
  destruct (existsb is_broken (matching ext l)).
  { destruct Hs as [e Hs]. erewrite bind_raise by exact Hs.
    cbn. symmetry. apply insert_id, Hd. }
  erewrite bind_ok by exact Hs.
  unfold lift at 1, py_gt_int, num_of.
  rewrite Qltb_inject_Z, length_map.
  erewrite bind_ok by reflexivity.
  destruct (n <? Z.of_nat (length (sort_by mtime (matching ext l)))).
  - erewrite bind_ok by reflexivity.
    rewrite slice_to_map. apply for_each_remove_dirs.
    + exact Hd.
    + exact Hl.
    + apply NoDup_map_slice_to, NoDup_names_sorted, Hl.
    + intros e He%slice_to_In%sort_by_In. exact (matching_In _ _ _ He).
  - cbn. symmetry. apply insert_id, Hd.
Qed.

(** *** Pruning twice *)





End CleanupFacts.

(** ** The backup script: what pruning leaves alone *)

Section FrameFacts.
Import Py Backup.
Variables d ext : string.

Lemma framed_refl w : framed d ext w w.
Proof. split; reflexivity. Qed.

Lemma framed_trans w1 w2 w3 :
  framed d ext w1 w2 -> framed d ext w2 w3 -> framed d ext w1 w3.
Proof. intros [H1 H1'] [H2 H2']. split; congruence. Qed.

Lemma framed_same_dirs w w' : dirs w' = dirs w -> framed d ext w w'.
Proof. intros E. unfold framed. rewrite E. split; reflexivity. Qed.

Lemma keeps_ret {A} (a : A) (Q : A -> Prop) :
  Q a -> keeps (framed d ext) (ret a) Q.
Proof.
  intros Ha w. split; [apply framed_refl|]. cbn. intros ? [= <-]. exact Ha.
Qed.

Lemma keeps_lift {A} (r : result A) (Q : A -> Prop) :
  (forall a, r = Ok a -> Q a) -> keeps (framed d ext) (lift r) Q.
Proof. intros H w. split; [apply framed_refl | exact H]. Qed.

Lemma keeps_bind {A B} (c : M world A) (k : A -> M world B) Q Q' :
  keeps (framed d ext) c Q ->
  (forall a, Q a -> keeps (framed d ext) (k a) Q') ->
  keeps (framed d ext) (bind c k) Q'.
Proof.
  intros Hc Hk w. destruct (Hc w) as [Hw Ha]. unfold bind.
  destruct (c w) as [[a|e] w1]; cbn [fst snd] in *.
  - destruct (Hk a (Ha a eq_refl) w1) as [Hw1 Hb].
    split; [exact (framed_trans _ _ _ Hw Hw1) | exact Hb].
  - split; [exact Hw | discriminate].
Qed.

Lemma keeps_try_catch {A} (c : M world A) (h : exn -> M world A) Q :
  keeps (framed d ext) c Q ->
  (forall e, keeps (framed d ext) (h e) Q) ->
  keeps (framed d ext) (try_catch c h) Q.
Proof.
  intros Hc Hh w. destruct (Hc w) as [Hw Ha]. unfold try_catch.
  destruct (c w) as [[a|e] w1]; cbn [fst snd] in *.
  - split; [exact Hw | exact Ha].
  - destruct (Hh e w1) as [Hw1 Hb].
    split; [exact (framed_trans _ _ _ Hw Hw1) | exact Hb].
Qed.

Lemma keeps_for_each {A} (l : list A) (body : A -> M world unit) :
  (forall x, In x l -> keeps (framed d ext) (body x) (fun _ => True)) ->
  keeps (framed d ext) (for_each l body) (fun _ => True).
Proof.
  induction l as [|x l IH]; intros H; cbn [for_each].
  - apply keeps_ret. exact I.
  - eapply keeps_bind; [apply H; left; reflexivity|].
    intros _ _. apply IH. intros y Hy. apply H. right. exact Hy.
Qed.

Lemma keeps_map_m {A B} (f : A -> M world B) (l : list A) :
  (forall x, keeps (framed d ext) (f x) (fun _ => True)) ->
  keeps (framed d ext) (map_m f l) (fun _ => True).
Proof.
  intros H. induction l as [|x l IH]; cbn [map_m].
  - apply keeps_ret. exact I.
  - eapply keeps_bind; [apply H|]. intros y _.
    eapply keeps_bind; [exact IH|]. intros ys _. apply keeps_ret. exact I.
Qed.

Lemma keeps_reader {A} (c : M world A) :
  (forall w, snd (c w) = w) -> keeps (framed d ext) c (fun _ => True).
Proof.
  intros H w. rewrite H. split; [apply framed_refl | trivial].
Qed.

Lemma keeps_log lv m : keeps (framed d ext) (Backup.log lv m) (fun _ => True).
Proof. intros w. split; [apply framed_same_dirs; reflexivity | trivial]. Qed.

Lemma keeps_listdir : keeps (framed d ext) (listdir d) (fun _ => True).
Proof.
  apply keeps_reader. intros w. unfold listdir.
  destruct (dirs w !! d); reflexivity.
Qed.

Lemma keeps_getmtime f : keeps (framed d ext) (getmtime d f) (fun _ => True).
Proof.
  apply keeps_reader. intros w. unfold getmtime.
  destruct (dirs w !! d ≫= _) as [[? [] ?]|]; reflexivity.
Qed.

(** Dropping a name that ends in [ext] leaves the other entries. *)
Lemma other_entries_drop f l :
  endswith f ext = true ->
  other_entries ext (drop_entry f l) = other_entries ext l.
Proof.
  intros Hf. unfold other_entries, drop_entry. rewrite filter_filter.
  apply List.filter_ext. intros e.
  destruct (String.eqb (name e) f) eqn:E; [|reflexivity].
  apply String.eqb_eq in E. rewrite E, Hf. reflexivity.
Qed.

Lemma keeps_remove f :
  endswith f ext = true -> keeps (framed d ext) (remove d f) (fun _ => True).
Proof.
  intros Hf w. split; [|trivial]. unfold remove.
  destruct (dirs w !! d) as [l|] eqn:Hd; [|apply framed_refl].
  destruct (find_entry l f) as [[? [] ?]|]; try apply framed_refl.
  all: split; cbn [snd dirs with_dirs].
  all: try apply delete_insert_eq.
  all: rewrite fmap_insert, other_entries_drop by exact Hf.
  all: apply insert_id; rewrite lookup_fmap, Hd; reflexivity.
Qed.

(** The sorted list holds nothing but the names it was given. *)
Lemma keeps_sorted_by_mtime cands :
  keeps (framed d ext) (sorted_by_mtime d cands)
        (fun files => forall f, In f files -> In f cands).
Proof.
  unfold sorted_by_mtime.
  eapply keeps_bind; [apply keeps_map_m, keeps_getmtime|].
  intros keys _. apply keeps_ret.
  intros f (p & <- & Hp%sort_by_In)%in_map_iff.
  destruct p as [f k]. apply list_elem_of_In in Hp.
  apply elem_of_zip_l in Hp. apply list_elem_of_In, Hp.
Qed.

Lemma keeps_cleanup_old_files n :
  keeps (framed d ext) (cleanup_old_files d ext n) (fun _ => True).
Proof.
  unfold cleanup_old_files, cleanup_attempt.
  apply keeps_try_catch; [|intros e; apply keeps_log].
  eapply keeps_bind; [apply keeps_listdir|]. intros names _.
  eapply keeps_bind; [apply keeps_sorted_by_mtime|]. intros files Hfiles.
  apply (keeps_bind _ _ (fun _ => True)); [apply keeps_lift; trivial|].
  intros [|] _.
  2: { apply keeps_ret. exact I. }
  apply (keeps_bind _ _ (fun _ => True)); [apply keeps_lift; trivial|].
  intros stop _.
  apply keeps_for_each. intros f Hf%slice_to_In%Hfiles.
  apply filter_In in Hf as [_ Hf].
  eapply keeps_bind; [apply keeps_remove, Hf|].
  intros _ _. apply keeps_log.
Qed.

(** C10: whatever the bound and whatever happens on the way,
    [cleanup_old_files] leaves in every directory the entries whose
    names do not end with the suffix exactly as they were, in the same
    order; no directory appears or disappears, and the directories
    other than the one pruned are untouched. *)
Theorem cleanup_old_files_spares_other_files (n : pyval) (w : world) :
  other_entries ext <$> dirs (snd (cleanup_old_files d ext n w))
  = other_entries ext <$> dirs w /\
  delete d (dirs (snd (cleanup_old_files d ext n w))) = delete d (dirs w) /\
  forall l e,
    dirs w !! d = Some l -> In e l -> endswith (name e) ext = false ->
    exists l', dirs (snd (cleanup_old_files d ext n w)) !! d = Some l' /\
               In e l'.
Proof.
  destruct (keeps_cleanup_old_files n w) as [[Hother Hrest] _].
  split; [exact Hother|]. split; [exact Hrest|].
  intros l e Hd He Hext.
  assert (Hl : (other_entries ext <$> dirs w) !! d
               = Some (other_entries ext l))
    by (rewrite lookup_fmap, Hd; reflexivity).
  rewrite <- Hother, lookup_fmap in Hl.
  destruct (dirs (snd (cleanup_old_files d ext n w)) !! d) as [l'|];
    [|discriminate].
  injection Hl as Hl. exists l'. split; [reflexivity|].
  assert (Hin : In e (other_entries ext l')).
  { rewrite Hl. apply filter_In. split; [exact He|]. rewrite Hext.
    reflexivity. }
  apply filter_In in Hin as [Hin _]. exact Hin.
Qed.

End FrameFacts.

Section FrameWitness.
Import Py Backup.

Lemma cleanup_old_files_spares_other_files_witness :
  exists l',
    dirs (snd (cleanup_old_files "/vault" ".tar.gz" (PInt 1) vault))
      !! "/vault" = Some l' /\
    In (Entry "notes.txt" RegFile 50) l'.
Proof.
  apply (proj2 (proj2 (cleanup_old_files_spares_other_files
                         "/vault" ".tar.gz" (PInt 1) vault))
           [Entry "mon.tar.gz" RegFile 100;
            Entry "notes.txt" RegFile 50;
            Entry "wed.tar.gz" RegFile 300;
            Entry "tue.tar.gz" RegFile 200]).
  - reflexivity.
  - right. left. reflexivity.
  - reflexivity.
Defined.

End FrameWitness.

(** ** The backup script: the retention bound *)

Section RetentionFacts.
Import Py Backup.

Lemma map_m_getmtime_pure d files w :
  snd (map_m (getmtime d) files w) = w.
Proof.
  induction files as [|f files IH]; [reflexivity|].
  cbn [map_m]. unfold bind at 1.
  assert (Hf : snd (getmtime d f w) = w).
  { unfold getmtime. destruct (dirs w !! d ≫= _) as [[? [] ?]|];
      reflexivity. }
  destruct (getmtime d f w) as [[t|e] w1]; cbn [snd] in Hf; subst w1;
    [|reflexivity].
  unfold bind. destruct (map_m (getmtime d) files w) as [[ts|e] w1];
    cbn [snd] in IH; subst w1; reflexivity.
Qed.

Lemma sorted_by_mtime_pure d files w :
  snd (sorted_by_mtime d files w) = w.
Proof.
  unfold sorted_by_mtime, bind.
  pose proof (map_m_getmtime_pure d files w) as H.
  destruct (map_m (getmtime d) files w) as [[ts|e] w1];
    cbn [snd] in H; subst w1; reflexivity.
Qed.

(** With the bound 0 the slice [files[:-0]] is empty: nothing is
    removed and nothing is logged. *)
Lemma cleanup_old_files_zero d ext w l :
  dirs w !! d = Some l ->
  existsb is_broken (matching ext l) = false ->
  List.NoDup (map name l) ->
  cleanup_old_files d ext (PInt 0) w = (Ok tt, w).
Proof.
  intros Hd Hb Hl. unfold cleanup_old_files, cleanup_attempt.
  apply try_catch_ok.
  erewrite bind_ok by (unfold listdir; rewrite Hd; reflexivity).
  rewrite matching_names.
  pose proof (sorted_by_mtime_entries d l (matching ext l) w Hd Hl
                (matching_In ext l)) as Hs.
  rewrite Hb in Hs. erewrite bind_ok by exact Hs.
  unfold lift at 1, py_gt_int, num_of. rewrite Qltb_inject_Z.
  erewrite bind_ok by reflexivity.
  destruct (0 <? _); [|reflexivity].
  erewrite bind_ok by reflexivity.
  rewrite slice_to_zero. reflexivity.
Qed.

Lemma cleanup_old_files_zero_dirs d ext w :
  dirs (snd (cleanup_old_files d ext (PInt 0) w)) = dirs w.
Proof.
  rewrite cleanup_old_files_dirs. unfold cleanup_attempt, bind, listdir.
  destruct (dirs w !! d) as [l|]; [|reflexivity].
  match goal with
  | |- context [sorted_by_mtime d ?c w] =>
      pose proof (sorted_by_mtime_pure d c w) as H;
      destruct (sorted_by_mtime d c w) as [[files|e] w1]
  end; cbn [snd] in H; subst w1; [|reflexivity].
  unfold lift, py_gt_int, py_neg_index, num_of.
  destruct (Qltb _ _); [|reflexivity].
  rewrite slice_to_zero. reflexivity.
Qed.

(** C1 at the bound 0: the three archives of the sample directory
    exceed the bound, and [cleanup_old_files] removes none of them; it
    returns with the world as it found it.  The same holds in every
    world: with the bound 0 no directory changes. *)
Theorem cleanup_old_files_zero_keeps_everything :
  (exists l,
     dirs vault !! "/vault" = Some l /\
     length (matching ".tar.gz" l) = 3%nat /\
     cleanup_old_files "/vault" ".tar.gz" (PInt 0) vault = (Ok tt, vault)) /\
  (forall d ext w,
     dirs (snd (cleanup_old_files d ext (PInt 0) w)) = dirs w).
Proof.
  split; [|exact cleanup_old_files_zero_dirs].
  eexists. split; [reflexivity|]. split; [reflexivity|].
  eapply cleanup_old_files_zero; [reflexivity | reflexivity |].
  repeat (constructor; [cbn; intuition discriminate|]). constructor.
Qed.

Lemma regular_not_broken m :
  forallb is_regular m = true -> existsb is_broken m = false.
Proof.
  induction m as [|e m IH]; cbn; [trivial|].
  intros [He Hm]%andb_true_iff. rewrite (IH Hm).
  unfold is_regular, is_broken in *. destruct (kind_of e);
    try discriminate; reflexivity.
Qed.

Lemma forallb_subset {A} (p : A -> bool) l l' :
  (forall x, In x l' -> In x l) ->
  forallb p l = true -> forallb p l' = true.
Proof.
  rewrite !forallb_forall. intros Hin H x Hx. apply H, Hin, Hx.
Qed.

Lemma In_take {A} k (l : list A) x : In x (take k l) -> In x l.
Proof.
  intros H. rewrite <- (firstn_skipn k l). apply in_or_app. left. exact H.
Qed.

(** A bound of at least 1, in a directory of distinct names whose
    matching entries are regular files: the listing loses
    exactly the first [len - n] matching entries in ascending order of
    modification time (none when at most [n] match), so that the [n]
    most recently modified remain, none of them older than a removed
    one. *)
Theorem cleanup_old_files_keeps_newest (d ext : string) (n : Z)
    (w : world) (l : list entry) :
  dirs w !! d = Some l ->
  List.NoDup (map name l) ->
  forallb is_regular (matching ext l) = true ->
  1 <= n ->
  let s := sort_by mtime (matching ext l) in
  let k := (length s - Z.to_nat n)%nat in
  let l' := List.filter (keep_out (take k s)) l in
  dirs (snd (cleanup_old_files d ext (PInt n) w)) = <[d := l']> (dirs w) /\
  sort_by mtime (matching ext l') = drop k s /\
  length (drop k s) = Nat.min (length (matching ext l)) (Z.to_nat n) /\
  (forall x y, In x (take k s) -> In y (drop k s) -> mtime x <= mtime y) /\
  (Z.of_nat (length (matching ext l)) <= n -> l' = l).
Proof.
  intros Hd Hl Hreg Hn s k l'.
  assert (Hlen : length s = length (matching ext l))
    by apply sort_by_length.
  assert (Hnone : k = 0%nat -> l' = l).
  { intros Hk. unfold l'. rewrite Hk. apply filter_all. reflexivity. }
  repeat split.
  - rewrite (cleanup_old_files_prunes d ext n w l Hd Hl). f_equal.
    unfold prune. fold s. rewrite (regular_not_broken _ Hreg).
    destruct (n <? Z.of_nat (length s)) eqn:E.
    + rewrite slice_to_neg by lia. fold k.
      rewrite remove_until_filter, removable_regular; [reflexivity|].
      eapply forallb_subset; [|exact Hreg].
      intros x Hx%In_take%sort_by_In. exact Hx.
    + apply Z.ltb_ge in E. symmetry. apply Hnone. unfold k. lia.
  - unfold l'. rewrite matching_filter, sort_by_filter. fold s.
    rewrite <- (firstn_skipn k s) at 2.
    apply filter_keep_out_prefix. rewrite firstn_skipn.
    apply NoDup_names_sorted, Hl.
  - rewrite length_skipn. unfold k. lia.
  - apply (ascending_app mtime). rewrite firstn_skipn.
    apply sort_by_ascending.
  - intros Hfew. apply Hnone. unfold k. lia.
Qed.

Lemma cleanup_old_files_keeps_newest_witness :
  dirs (snd (cleanup_old_files "/vault" ".tar.gz" (PInt 2) vault))
  = {[ "/vault" := [Entry "notes.txt" RegFile 50;
                    Entry "wed.tar.gz" RegFile 300;
                    Entry "tue.tar.gz" RegFile 200] ]}.
Proof.
  destruct (cleanup_old_files_keeps_newest "/vault" ".tar.gz" 2 vault
              [Entry "mon.tar.gz" RegFile 100;
               Entry "notes.txt" RegFile 50;
               Entry "wed.tar.gz" RegFile 300;
               Entry "tue.tar.gz" RegFile 200]) as (H & _).
  - reflexivity.
  - repeat (constructor; [cbn; intuition discriminate|]). constructor.
  - reflexivity.
  - lia.
  - rewrite H. apply map_eq. intros i.
    destruct (decide (i = "/vault")) as [->|Hi].
    + rewrite lookup_insert_eq, lookup_singleton_eq. reflexivity.
    + rewrite lookup_insert_ne, lookup_singleton_ne by congruence.
      apply lookup_singleton_ne. congruence.
Defined.


(** A negative bound is no retention count: [files[:-max_files]] then
    takes that many files from the front at every run. *)
Remark negative_bound_prunes_again :
  let w1 := snd (cleanup_old_files "/vault" ".tar.gz" (PInt (-1)) vault) in
  let w2 := snd (cleanup_old_files "/vault" ".tar.gz" (PInt (-1)) w1) in
  dirs w1 !! "/vault"
  = Some [Entry "notes.txt" RegFile 50;
          Entry "wed.tar.gz" RegFile 300;
          Entry "tue.tar.gz" RegFile 200] /\
  dirs w2 !! "/vault"
  = Some [Entry "notes.txt" RegFile 50; Entry "wed.tar.gz" RegFile 300].
Proof. split; reflexivity. Qed.


End RetentionFacts.

(** ** The update script: the whole dispatch *)

Section DispatchFacts.
Import Py UpdateLinux.

Lemma issued_prefix exec cmds :
  forall tr, exists k, issued exec tr cmds = take k cmds.
Proof.
  induction cmds as [|cmd rest IH]; intros tr; [exists 0%nat; reflexivity|].
  cbn [issued]. destruct (succeeds (exec tr cmd)).
  - destruct (IH (tr ++ [cmd])%list) as [k ->]. exists (S k). reflexivity.
  - exists 1%nat. destruct rest; reflexivity.
Qed.

Lemma issued_all exec cmds :
  forall tr, all_succeed exec tr cmds = true -> issued exec tr cmds = cmds.
Proof.
  induction cmds as [|cmd rest IH]; intros tr; [reflexivity|].
  cbn [issued all_succeed]. intros [-> H]%andb_true_iff.
  rewrite (IH _ H). reflexivity.
Qed.

Lemma rpm_family id :
  in_tuple id ["fedora"; "centos"; "rhel"] = true ->
  id = "fedora" \/ id = "centos" \/ id = "rhel".
Proof.
  unfold in_tuple. cbn [existsb].
  destruct (String.eqb_spec id "fedora"); [tauto|].
  destruct (String.eqb_spec id "centos"); [tauto|].
  destruct (String.eqb_spec id "rhel"); [tauto|discriminate].
Qed.

Ltac run_command_cases w :=
  repeat (match goal with
          | |- context [exec w ?t ?c] => destruct (exec w t c) as [? ?|?]
          end;
          cbn [succeeds fst snd negb andb orb trace logs exec os_release
               all_succeed issued app];
          try match goal with
              | |- context [bool_decide (?s = 0)] =>
                  destruct (bool_decide (s = 0))
              end;
          cbn [succeeds fst snd negb andb orb trace logs exec os_release
               all_succeed issued app]).

Ltac close_outcome :=
  eexists; rewrite <- ?app_assoc;
  cbn [app fst snd negb andb trace logs exec os_release];
  repeat split; try reflexivity; try (eexists; reflexivity).

(** Everything [run] does, in one statement. *)
Lemma run_outcome (self : updater) (w : world) :
  let ok := in_tuple (distrib_id self) supported
            && all_succeed (exec w) (trace w) (plan self) in
  exists rest,
    fst (run self w) = Ok ok /\
    trace (snd (run self w))
    = (trace w ++ issued (exec w) (trace w) (plan self))%list /\
    logs (snd (run self w))
    = (logs w ++ (INFO, MsgDetected (distrib_id self)) :: rest)%list /\
    (if ok then last rest = Some (INFO, MsgUpdated)
     else exists m, last rest = Some (ERROR, m)).
Proof.
  destruct self as [full cln id]. cbn [distrib_id].
  destruct (in_tuple id ["debian"; "ubuntu"; "linuxmint"]) eqn:Hapt.
  - assert (Hsup : in_tuple id supported = true).
    { change supported
        with (["debian"; "ubuntu"; "linuxmint"]
              ++ ["fedora"; "centos"; "rhel"])%list.
      rewrite in_tuple_app, Hapt. reflexivity. }
    rewrite Hsup. unfold run, plan. cbn [distrib_id full_upgrade clean].
    rewrite Hapt.
    unfold _apt_update, _apt_upgrade, _apt_clean, run_all, _run_command,
      bind, try_catch, logger_info, logger_error, log, ret.
    cbn [full_upgrade clean os_release exec trace logs fst snd].
    destruct full, cln;
      cbn [succeeds fst snd negb andb orb trace logs exec os_release
           all_succeed issued app];
      run_command_cases w; close_outcome.
  - destruct (in_tuple id ["fedora"; "centos"; "rhel"]) eqn:Hrpm.
    + assert (Hsup : in_tuple id supported = true).
      { change supported
          with (["debian"; "ubuntu"; "linuxmint"]
                ++ ["fedora"; "centos"; "rhel"])%list.
        rewrite in_tuple_app, Hrpm. apply orb_true_r. }
      rewrite Hsup. unfold run, plan. cbn [distrib_id full_upgrade clean].
      rewrite Hapt, Hrpm.
      destruct (rpm_family id Hrpm) as [-> | [-> | ->]];
        change (str_contains _ "fedora") with true
        || change (str_contains _ "fedora") with false;
        cbv iota;
        unfold _dnf_upgrade, _yum_upgrade, run_all, _run_command,
          bind, try_catch, logger_info, logger_error, log, ret;
        cbn [full_upgrade clean os_release exec trace logs fst snd
             String.eqb Ascii.eqb Bool.eqb];
        destruct cln;
        cbn [succeeds fst snd negb andb orb trace logs exec os_release
             all_succeed issued app];
        run_command_cases w; close_outcome.
    + assert (Hsup : in_tuple id supported = false).
      { change supported
          with (["debian"; "ubuntu"; "linuxmint"]
                ++ ["fedora"; "centos"; "rhel"])%list.
        rewrite in_tuple_app, Hapt, Hrpm. reflexivity. }
      rewrite (run_unsupported (Updater full cln id) w Hsup), Hsup.
      unfold plan. cbn [distrib_id]. rewrite Hapt, Hrpm.
      cbn. eexists. repeat split; try reflexivity.
      * rewrite app_nil_r. reflexivity.
      * eexists. reflexivity.
Qed.

(** X1: [run] executes the plan of the detected distribution and
    stops at the first command that does not exit with status 0: the
    commands it issues are the plan up to and including that command,
    and it answers [True] exactly when the distribution is one of the
    six and every command of the plan succeeded, in which case the
    whole plan was issued.  It never raises. *)
Theorem run_follows_plan (self : updater) (w : world) :
  let ok := in_tuple (distrib_id self) supported
            && all_succeed (exec w) (trace w) (plan self) in
  fst (run self w) = Ok ok /\
  trace (snd (run self w))
  = (trace w ++ issued (exec w) (trace w) (plan self))%list /\
  (exists k, issued (exec w) (trace w) (plan self) = take k (plan self)) /\
  (ok = true -> trace (snd (run self w)) = (trace w ++ plan self)%list).
Proof.
  intros ok. destruct (run_outcome self w) as (rest & Hr & Ht & _).
  split; [exact Hr|]. split; [exact Ht|]. split; [apply issued_prefix|].
  intros [_ Hall]%andb_true_iff. rewrite Ht, (issued_all _ _ _ Hall).
  reflexivity.
Qed.

Lemma run_follows_plan_witness :
  trace (snd (run (Updater true true "debian") (host None obliging)))
  = [["apt"; "update"]; ["apt"; "full-upgrade"; "-y"];
     ["apt"; "autoremove"; "-y"]; ["apt"; "clean"];
     ["rm"; "-rf"; "/var/lib/apt/lists/*"]].
Proof.
  apply (proj2 (proj2 (proj2 (run_follows_plan
                                (Updater true true "debian")
                                (host None obliging))))).
  reflexivity.
Defined.

(** X2: the log tells how [run] ended.  The first record of a run names
    the detected distribution; the last one is the success message
    when [run] answers [True] and an error when it answers [False]:
    no failure is silent. *)
Theorem run_logs_its_outcome (self : updater) (w : world) :
  exists rest,
    logs (snd (run self w))
    = (logs w ++ (INFO, MsgDetected (distrib_id self)) :: rest)%list /\
    (fst (run self w) = Ok true /\ last rest = Some (INFO, MsgUpdated) \/
     fst (run self w) = Ok false /\ exists m, last rest = Some (ERROR, m)).
Proof.
  destruct (run_outcome self w) as (rest & Hr & _ & Hl & Hlast).
  exists rest. split; [exact Hl|]. rewrite Hr.
  destruct (in_tuple _ _ && all_succeed _ _ _); [left|right]; split;
    try reflexivity; exact Hlast.
Qed.

Lemma get_distribution_raises w e :
  fst (_get_distribution w) = Raise e -> _get_distribution w = (Raise e, w).
Proof.
  unfold _get_distribution.
  destruct (os_release w); cbn [fst]; intros ->; reflexivity.
Qed.

(** X3: the last two lines of the update script, which follow the
    parsing of the command line.  When the reading of the release file
    raises, the exception leaves the script uncaught, before anything
    is logged or any command issued.  Otherwise the script exits with
    the status 0 or 1 that it hands to [sys.exit], and with 0 exactly
    when the detected distribution is one of the six and every command
    of its plan succeeded.  Either way the interpreter ends with
    status 0 or 1. *)
Theorem main_exit_status (full clean : bool) (w : world) :
  (forall e,
     fst (_get_distribution w) = Raise e ->
     main full clean w = (Raise e, w)) /\
  (forall id,
     fst (_get_distribution w) = Ok id ->
     let self := Updater full clean id in
     let ok := in_tuple id supported
               && all_succeed (exec w) (trace w) (plan self) in
     fst (main full clean w) = Ok (if ok then 0 else 1)) /\
  (exit_status (fst (main full clean w)) = 0 \/
   exit_status (fst (main full clean w)) = 1) /\
  (exit_status (fst (main full clean w)) = 0 <->
   exists id,
     fst (_get_distribution w) = Ok id /\
     in_tuple id supported
     && all_succeed (exec w) (trace w) (plan (Updater full clean id))
     = true).
Proof.
  assert (Hok : forall id,
            fst (_get_distribution w) = Ok id ->
            fst (main full clean w)
            = Ok (if in_tuple id supported
                     && all_succeed (exec w) (trace w)
                          (plan (Updater full clean id))
                  then 0 else 1)).
  { intros id Hid. rewrite (main_detected full clean w id Hid).
    destruct (run_outcome (Updater full clean id) w) as (rest & Hr & _).
    cbn [distrib_id] in Hr.
    destruct (run _ w) as [[b|e] w']; cbn [fst] in Hr; [|discriminate].
    injection Hr as ->. reflexivity. }
  assert (Hraise : forall e,
            fst (_get_distribution w) = Raise e ->
            main full clean w = (Raise e, w)).
  { intros e He%get_distribution_raises.
    unfold main, SystemUpdater, bind. rewrite He. reflexivity. }
  split; [exact Hraise|]. split; [exact Hok|].
  destruct (fst (_get_distribution w)) as [id|e] eqn:E.
  - rewrite (Hok id eq_refl).
    destruct (in_tuple id supported && all_succeed _ _ _) eqn:Eok;
      cbn [exit_status].
    + split; [left; reflexivity|]. split; [|reflexivity].
      intros _. exists id. split; [reflexivity|exact Eok].
    + split; [right; reflexivity|]. split; [discriminate|].
      intros (id' & [= <-] & H). rewrite H in Eok. discriminate.
  - rewrite (Hraise e eq_refl). cbn [fst exit_status].
    split; [right; reflexivity|]. split; [discriminate|].
    intros (id & Hid & _). discriminate.
Qed.

Lemma main_exit_status_witness :
  main true false (locked obliging)
  = (Raise (Exn PermissionError "/etc/os-release"), locked obliging).
Proof.
  apply (proj1 (main_exit_status true false (locked obliging))).
  reflexivity.
Defined.

(** X4: when the first command of the plan cannot be started, as on a
    host without the package manager, [run] catches the exception,
    logs it as a critical error and answers [False]; nothing further
    is issued. *)
Theorem run_survives_missing_tool (self : updater) (w : world)
    (cmd : list string) (rest : list (list string)) (e : exn) :
  plan self = cmd :: rest ->
  exec w (trace w) cmd = NotStarted e ->
  run self w
  = (Ok false,
     World (os_release w) (release_fault w) (exec w) (trace w ++ [cmd])
       (logs w ++ [(INFO, MsgDetected (distrib_id self));
                   (ERROR, MsgCritical e)])).
Proof.
  destruct self as [full cln id]. unfold plan, run.
  cbn [distrib_id full_upgrade clean].
  destruct (in_tuple id ["debian"; "ubuntu"; "linuxmint"]) eqn:Hapt.
  - intros [= <- _] He.
    unfold _apt_update, _run_command, bind, try_catch, logger_info,
      logger_error, log, ret.
    cbn [os_release exec trace logs fst snd]. rewrite He.
    cbn. rewrite <- app_assoc. reflexivity.
  - destruct (in_tuple id ["fedora"; "centos"; "rhel"]) eqn:Hrpm;
      [|discriminate].
    destruct (rpm_family id Hrpm) as [-> | [-> | ->]];
      change (str_contains _ "fedora") with true
      || change (str_contains _ "fedora") with false;
      cbn [String.eqb Ascii.eqb Bool.eqb]; cbv iota;
      intros [= <- _] He;
      unfold _dnf_upgrade, _yum_upgrade, _run_command, bind, try_catch,
        logger_info, logger_error, log, ret;
      cbn [clean run_all app];
      unfold _run_command, bind;
      cbn [os_release exec trace logs fst snd]; rewrite He;
      cbn; rewrite <- app_assoc; reflexivity.
Qed.

Lemma run_survives_missing_tool_witness :
  fst (run (Updater false true "fedora") (host None bare)) = Ok false /\
  trace (snd (run (Updater false true "fedora") (host None bare)))
  = [["dnf"; "upgrade"; "-y"]].
Proof.
  rewrite (run_survives_missing_tool (Updater false true "fedora")
             (host None bare) ["dnf"; "upgrade"; "-y"]
             [["dnf"; "autoremove"; "-y"]; ["dnf"; "clean"; "all"]]
             (Exn FileNotFoundError "dnf"));
    [split; reflexivity | reflexivity | reflexivity].
Defined.

End DispatchFacts.

(** ** The update script: the line of the release file *)

Section ReleaseLineFacts.
Import Py UpdateLinux.

(** X16: [_get_distribution] reads the value of the first [ID=] line
    only up to a second equals sign: whatever follows it on the line is
    ignored, and the answer is the part between the two signs with the
    double quotes at its ends removed. *)
Theorem get_distribution_cuts_at_equals (w : world)
    (content : string) (pre post : list string) (u t : string) :
  os_release w = Some content ->
  Forall no_id pre ->
  all_chars (fun c => negb (Ascii.eqb c "="%char)) u = true ->
  file_lines content
  = (pre ++ ("ID=" ++ u ++ String "=" t)%string :: post)%list ->
  _get_distribution w = (Ok (strip_char QUOTE u), w).
Proof.
  intros Hrel Hpre Hu Hlines.
  unfold _get_distribution. rewrite Hrel, Hlines.
  rewrite (scan_lines_skip _ _ _ Hpre).
  change ("ID=" ++ u ++ String "=" t)
    with (String "I" (String "D" (String "=" (u ++ String "=" t)))).
  cbn [scan_lines].
  replace (startswith (String "I" (String "D" (String "="
             (u ++ String "=" t)))) "ID=") with true
    by (symmetry; unfold startswith; apply prefix_correct;
        destruct (u ++ String "=" t); reflexivity).
  unfold strip, strip_by.
  change (lstrip_by isspace
            (String "I" (String "D" (String "=" (u ++ String "=" t)))))
    with (String "I" (String "D" (String "=" (u ++ String "=" t)))).
  rewrite !rstrip_by_keep by reflexivity.
  rewrite rstrip_by_inner by reflexivity.
  destruct (split_at_sep "="%char u (rstrip_by isspace t) Hu) as [more E].
  cbn [split]. cbn [Ascii.eqb Bool.eqb]. rewrite E. reflexivity.
Qed.

Lemma get_distribution_cuts_at_equals_witness :
  let content :=
    "NAME=Fedora" ++ String LF EmptyString
    ++ "ID=fedora=39" ++ String LF EmptyString ++ "VERSION_ID=39" in
  let w := host (Some content) obliging in
  _get_distribution w = (Ok "fedora", w).
Proof.
  intros content w.
  apply (get_distribution_cuts_at_equals w content
           ["NAME=Fedora" ++ String LF EmptyString] ["VERSION_ID=39"]
           "fedora" ("39" ++ String LF EmptyString)).
  - reflexivity.
  - repeat constructor.
  - reflexivity.
  - reflexivity.
Defined.

End ReleaseLineFacts.

(** ** The backup script: how a run ends *)

Section RunOutcomeFacts.
Import Py Backup.

Lemma bind_inv_ok {W A B} (c : M W A) (k : A -> M W B) w b w' :
  bind c k w = (Ok b, w') ->
  exists a w1, c w = (Ok a, w1) /\ k a w1 = (Ok b, w').
Proof.
  unfold bind. destruct (c w) as [[a|e] w1]; [eauto | discriminate].
Qed.

Lemma log_last lv m w : last (logs (snd (Backup.log lv m w))) = Some (lv, m).
Proof. cbn. apply last_snoc. Qed.

(** What the [try] block of [run_backup] returns is 0, right after the
    closing message. *)
Lemma run_backup_body_ok self source w status w' :
  (logger_info MsgBackupStart ;;
   enough <- check_disk_space self ;;
   if negb enough then raise (Exn RuntimeError "Not enough disk space")
   else
   src_there <- os_path_exists source ;;
   if negb src_there
   then raise (Exn FileNotFoundError
                 ("Source directory does not exist: " ++ py_str source))
   else
   dir_there <- os_path_exists (PStr (backup_dir self)) ;;
   (if negb dir_there then
      makedirs (backup_dir self) ;;
      logger_info (MsgCreatedDir (backup_dir self))
    else ret tt) ;;
   ts <- now_strftime ;;
   base <- lift (os_path_basename source) ;;
   let backup_name := "backup_" ++ base ++ "_" ++ ts ++ ".tar.gz" in
   let backup_path := path_join (backup_dir self) backup_name in
   logger_info (MsgCreating backup_path) ;;
   make_archive (backup_dir self) backup_name ;;
   max_backups <- lift (getitem (config self) "max_backups") ;;
   cleanup_old_files (backup_dir self) ".tar.gz" max_backups ;;
   max_logs <- lift (getitem (config self) "max_logs") ;;
   cleanup_old_files (log_dir self) ".log" max_logs ;;
   logger_info (MsgBackupDone backup_path) ;;
   ret 0) w = (Ok status, w') ->
  status = 0 /\
  archiver_fails w = false /\
  exists path, last (logs w') = Some (INFO, MsgBackupDone path).
Proof.
  intros H.
  apply bind_inv_ok in H as ([] & w1 & H1 & H).
  apply bind_inv_ok in H as (enough & w2 & H2 & H).
  destruct enough; cbn [negb] in H; [|discriminate].
  apply bind_inv_ok in H as (src_there & w3 & H3 & H).
  destruct src_there; cbn [negb] in H; [|discriminate].
  apply bind_inv_ok in H as (dir_there & w4 & H4 & H).
  apply bind_inv_ok in H as ([] & w5 & H5 & H).
  apply bind_inv_ok in H as (ts & w6 & H6 & H).
  apply bind_inv_ok in H as (base & w7 & H7 & H).
  cbv zeta in H.
  apply bind_inv_ok in H as ([] & w8 & H8 & H).
  apply bind_inv_ok in H as ([] & w9 & H9 & H).
  apply bind_inv_ok in H as (mb & w10 & H10 & H).
  apply bind_inv_ok in H as ([] & w11 & H11 & H).
  apply bind_inv_ok in H as (ml & w12 & H12 & H).
  apply bind_inv_ok in H as ([] & w13 & H13 & H).
  apply bind_inv_ok in H as ([] & w14 & H14 & H).
  unfold ret in H. inversion H. subst status w'. clear H.
  split; [reflexivity|]. split.
  - (* the archiver worked *)
    unfold logger_info, log in H1. inversion H1. subst w1. clear H1.
    assert (E2 : archiver_fails w2 = archiver_fails w).
    { unfold check_disk_space, bind, lift in H2.
      destruct (getitem _ _) as [root|]; [|discriminate].
      pose proof (disk_usage_free_pure root
                    (with_logs (logs w ++ [(INFO, MsgBackupStart)]) w)) as Hp.
      destruct (disk_usage_free root _) as [[free|] wa];
        cbn [snd] in Hp; subst wa; [|discriminate].
      destruct (getitem _ _) as [req|]; [|discriminate].
      destruct (py_lt _ _) as [[|]|]; try discriminate.
      unfold ret in H2. inversion H2. reflexivity. }
    assert (E3 : w3 = w2).
    { unfold os_path_exists in H3.
      destruct source as [|[]| | | |]; cbv beta iota in H3;
        try discriminate; inversion H3; reflexivity. }
    assert (E4 : w4 = w3)
      by (unfold os_path_exists in H4; inversion H4; reflexivity).
    assert (E5 : archiver_fails w5 = archiver_fails w4).
    { destruct (ensure_backup_dir_returns dir_there (backup_dir self) w4)
        as (wa & Ha & Hb).
      rewrite Ha in H5. inversion H5. subst. exact Hb. }
    assert (E6 : w6 = w5)
      by (unfold now_strftime in H6; inversion H6; reflexivity).
    assert (E7 : w7 = w6).
    { unfold lift in H7. inversion H7. reflexivity. }
    unfold logger_info, log in H8. inversion H8. subst w8.
    unfold make_archive in H9. cbn [archiver_fails with_logs] in H9.
    destruct (archiver_fails w7) eqn:E; [discriminate|].
    subst. congruence.
  - exists (path_join (backup_dir self)
              ("backup_" ++ base ++ "_" ++ ts ++ ".tar.gz")).
    unfold logger_info, log in H14. inversion H14. cbn. apply last_snoc.
Qed.

(** X5: [run_backup] never raises.  It returns 0 or 1; with 0 the
    archiver has worked and the last log record is the closing
    message, with 1 the last log record is the critical error that
    ended the run. *)
Theorem run_backup_logs_its_outcome (self : manager) (source : pyval)
    (w : world) :
  (fst (run_backup self source w) = Ok 0 /\
   archiver_fails w = false /\
   exists path,
     last (logs (snd (run_backup self source w)))
     = Some (INFO, MsgBackupDone path)) \/
  (fst (run_backup self source w) = Ok 1 /\
   exists e,
     last (logs (snd (run_backup self source w)))
     = Some (ERROR, MsgCritical e)).
Proof.
  unfold run_backup, try_catch.
  match goal with
  | |- context [bind ?c ?k w] => destruct (bind c k w) as [[status|e] w'] eqn:E
  end.
  - apply run_backup_body_ok in E as (-> & Harch & Hlast).
    left. split; [reflexivity|]. split; [exact Harch | exact Hlast].
  - right. split; [reflexivity|]. exists e. cbn. apply last_snoc.
Qed.

Lemma check_disk_space_raises self w l e :
  fst (check_disk_space self w) = Raise e ->
  check_disk_space self (with_logs l w) = (Raise e, with_logs l w).
Proof.
  unfold check_disk_space, bind, lift, getitem.
  destruct (config self !! "backup_root") as [root|];
    [|intros [= <-]; reflexivity].
  rewrite disk_usage_free_frame.
  pose proof (disk_usage_free_pure root w) as Hpure.
  destruct (disk_usage_free root w) as [[free|e'] w1];
    cbn [fst snd] in *; subst w1; [|intros [= <-]; reflexivity].
  destruct (config self !! "min_free_space_gb") as [required|];
    [|intros [= <-]; reflexivity].
  destruct (py_lt _ required) as [[|]|]; try discriminate.
  intros [= <-]. reflexivity.
Qed.

(** X6: nothing is archived unless the guard says yes.  Whenever
    [check_disk_space] does not return [True], be it that it returns
    [False] or that it raises (no threshold in the configuration, a
    threshold that is not a number, a backup root that does not
    exist), [run_backup] returns 1 and every directory is as it
    was. *)
Theorem run_backup_needs_the_guard (self : manager) (source : pyval)
    (w : world) :
  fst (check_disk_space self w) <> Ok true ->
  fst (run_backup self source w) = Ok 1 /\
  dirs (snd (run_backup self source w)) = dirs w.
Proof.
  intros Hguard.
  destruct (fst (check_disk_space self w)) as [[|]|e] eqn:E.
  - destruct Hguard. reflexivity.
  - apply run_backup_no_space, E.
  - unfold run_backup. erewrite try_catch_raise.
    2: { erewrite bind_ok by reflexivity.
         erewrite bind_raise by (apply check_disk_space_raises, E).
         reflexivity. }
    split; reflexivity.
Qed.

Lemma run_backup_needs_the_guard_witness :
  let self :=
    Manager (<["min_free_space_gb" := PStr "2GB"]> (config (nightly (PInt 5))))
            "/srv/backup/backup_files" "/srv/backup/logs"
            "/srv/backup/logs/backup.log" in
  fst (run_backup self (PStr "/home/data") (site (2 ^ 40))) = Ok 1 /\
  dirs (snd (run_backup self (PStr "/home/data") (site (2 ^ 40))))
  = dirs (site (2 ^ 40)).
Proof.
  intros self.
  apply (run_backup_needs_the_guard self (PStr "/home/data") (site (2 ^ 40))).
  vm_compute. discriminate.
Defined.





(** X8: once the command line is parsed, the [try] statement that ends
    the backup script hands [sys.exit] the status 0 or 1 and lets no
    exception through.  When the configuration cannot be loaded, or
    when neither [--source] nor the configuration names a source (the
    value under [source_dir] is [None], empty, zero or [False]), it
    ends with 1 after one line on the error stream, before a manager
    is built: no directory is created and nothing is logged. *)
Theorem main_status_and_early_exit (a : args) (w : world) :
  (fst (main a w) = Ok 0 \/ fst (main a w) = Ok 1) /\
  (forall e,
     fst (load_config (args_config a) w) = Raise e ->
     main a w
     = (Ok 1,
        with_stderr (stderr w ++ ["Initialization error: " ++ exn_str e]) w)) /\
  (forall c src,
     fst (load_config (args_config a) w) = Ok c ->
     getitem (override_source a c) "source_dir" = Ok src ->
     truthy src = false ->
     main a w
     = (Ok 1,
        with_stderr
          (stderr w ++ ["Initialization error: No source directory given"])
          w)).
Proof.
  assert (Hload : load_config (args_config a) w
                  = (fst (load_config (args_config a) w), w)).
  { rewrite <- (load_config_pure (args_config a) w) at 3.
    apply surjective_pairing. }
  split; [|split].
  - unfold main, try_catch.
    match goal with
    | |- context [bind ?c ?k w] =>
        destruct (bind c k w) as [[status|e] w'] eqn:E
    end; [|right; reflexivity].
    apply bind_inv_ok in E as (c & w1 & _ & E). cbv zeta in E.
    apply bind_inv_ok in E as (src & w2 & _ & E).
    destruct (truthy src); cbn [negb] in E; [|discriminate].
    apply bind_inv_ok in E as (self & w3 & _ & E).
    unfold run_backup, try_catch in E.
    match type of E with
    | context [bind ?c ?k w3] =>
        destruct (bind c k w3) as [[st|e] w4] eqn:Ebody
    end.
    + apply run_backup_body_ok in Ebody as (-> & _).
      inversion E. left. reflexivity.
    + cbn in E. inversion E. right. reflexivity.
  - intros e He. rewrite He in Hload. unfold main.
    erewrite try_catch_raise by (erewrite bind_raise by exact Hload;
                                 reflexivity).
    reflexivity.
  - intros c src Hc Hsrc Hfalsy. rewrite Hc in Hload. unfold main.
    erewrite try_catch_raise.
    2: { erewrite bind_ok by exact Hload. cbv zeta.
         erewrite bind_ok by (unfold lift; rewrite Hsrc; reflexivity).
         rewrite Hfalsy. reflexivity. }
    reflexivity.
Qed.

Lemma main_status_and_early_exit_witness :
  let d : gmap string pyval :=
    {[ "backup_root" := PStr "/srv/backup";
       "min_free_space_gb" := PInt 2;
       "max_backups" := PInt 7 ]} in
  let w := with_yaml "/etc/backup_config.yaml" (DocDict d) (site 0) in
  main (Args DEFAULT_CONFIG_PATH (Some EmptyString)) w
  = (Ok 1,
     with_stderr ["Initialization error: No source directory given"] w).
Proof.
  intros d w.
  apply (proj2 (proj2 (main_status_and_early_exit
                         (Args DEFAULT_CONFIG_PATH (Some EmptyString)) w))
           (setdefault "max_logs" (PInt 5)
              (setdefault "log_level" (PStr "INFO")
                 (setdefault "source_dir" PNone d)))
           PNone); reflexivity.
Defined.

(** X9: a source given on the command line wins over the configured
    one.  With a non-empty [--source], once the manager is built the
    script is [run_backup] on that source, whatever [source_dir] the
    configuration holds; the other keys of the configuration reach the
    manager unchanged. *)
Theorem source_argument_wins (a : args) (s : string) (w w1 : world)
    (c : gmap string pyval) (self : manager) :
  args_source a = Some s ->
  s <> EmptyString ->
  fst (load_config (args_config a) w) = Ok c ->
  BackupManager (override_source a c) w = (Ok self, w1) ->
  main a w = run_backup self (PStr s) w1 /\
  config self !! "source_dir" = Some (PStr s) /\
  forall k, k <> "source_dir" -> config self !! k = c !! k.
Proof.
  intros Ha Hs Hc Hinit.
  assert (Hover : override_source a c = <["source_dir" := PStr s]> c).
  { unfold override_source. rewrite Ha. cbn [truthy].
    destruct (String.eqb_spec s EmptyString); [contradiction|reflexivity]. }
  assert (Hself : config self = override_source a c).
  { unfold BackupManager in Hinit.
    apply bind_inv_ok in Hinit as (r1 & wa & _ & Hinit).
    apply bind_inv_ok in Hinit as (bd & wb & _ & Hinit).
    apply bind_inv_ok in Hinit as (r2 & wc & _ & Hinit).
    apply bind_inv_ok in Hinit as (ld & wd & _ & Hinit).
    cbv zeta in Hinit.
    apply bind_inv_ok in Hinit as ([] & we & _ & Hinit).
    unfold ret in Hinit. inversion Hinit. reflexivity. }
  split; [|split].
  - apply (main_runs_backup a w c (PStr s) self w1 Hc); [| |exact Hinit].
    + rewrite Hover. unfold getitem. rewrite lookup_insert_eq. reflexivity.
    + cbn [truthy].
      destruct (String.eqb_spec s EmptyString); [contradiction|reflexivity].
  - rewrite Hself, Hover. apply lookup_insert_eq.
  - intros k Hk. rewrite Hself, Hover. apply lookup_insert_ne. congruence.
Qed.

Lemma source_argument_wins_witness :
  let d : gmap string pyval :=
    {[ "backup_root" := PStr "/srv/backup";
       "source_dir" := PStr "/home/data";
       "min_free_space_gb" := PInt 2;
       "max_backups" := PInt 7 ]} in
  let c := setdefault "max_logs" (PInt 5)
             (setdefault "log_level" (PStr "INFO")
                (setdefault "source_dir" PNone d)) in
  let w := with_yaml "/etc/backup_config.yaml" (DocDict d) (site 0) in
  let a := Args DEFAULT_CONFIG_PATH (Some "/home/other") in
  let self := Manager (<["source_dir" := PStr "/home/other"]> c)
                      "/srv/backup/backup_files" "/srv/backup/logs"
                      "/srv/backup/logs/backup.log" in
  main a w = run_backup self (PStr "/home/other") w /\
  config self !! "source_dir" = Some (PStr "/home/other") /\
  forall k, k <> "source_dir" -> config self !! k = c !! k.
Proof.
  intros d c w a self.
  apply (source_argument_wins a "/home/other" w w c self).
  - reflexivity.
  - discriminate.
  - reflexivity.
  - vm_compute. reflexivity.
Defined.

End RunOutcomeFacts.

(** ** The backup script: building the manager *)

Section ManagerFacts.
Import Py Backup.







End ManagerFacts.

(** ** The backup script: more on pruning *)

Section PruneMoreFacts.
Import Py Backup.

(** X10: a bound that is not an integer disables pruning.  With
    [max_files] a float, a string, [None] or any other non-integer,
    [cleanup_old_files] returns without having removed anything: the
    comparison or the slice raises inside the [try] block. *)
Theorem non_integer_bound_never_deletes (d ext : string) (v : pyval)
    (w : world) :
  (forall z, v <> PInt z) ->
  (forall b, v <> PBool b) ->
  fst (cleanup_old_files d ext v w) = Ok tt /\
  dirs (snd (cleanup_old_files d ext v w)) = dirs w.
Proof.
  intros Hint Hbool.
  split; [rewrite cleanup_old_files_returns; reflexivity|].
  rewrite cleanup_old_files_dirs. unfold cleanup_attempt, bind, listdir.
  destruct (dirs w !! d) as [l|]; [|reflexivity].
  match goal with
  | |- context [sorted_by_mtime d ?c w] =>
      pose proof (sorted_by_mtime_pure d c w) as H;
      destruct (sorted_by_mtime d c w) as [[files|e] w1]
  end; cbn [snd] in H; subst w1; [|reflexivity].
  destruct v as [|b|z|q|s|]; try reflexivity.
  - destruct (Hbool b eq_refl).
  - destruct (Hint z eq_refl).
  - unfold lift, py_gt_int, py_neg_index, num_of.
    destruct (Qltb _ _); reflexivity.
Qed.

Lemma non_integer_bound_never_deletes_witness :
  dirs (snd (cleanup_old_files "/vault" ".tar.gz" (PStr "1") vault))
  = dirs vault.
Proof.
  apply (non_integer_bound_never_deletes "/vault" ".tar.gz" (PStr "1") vault);
    discriminate.
Defined.

Lemma take_min {A} k (l : list A) : take (Nat.min k (length l)) l = take k l.
Proof.
  destruct (Nat.le_ge_cases k (length l)) as [H|H].
  - rewrite Nat.min_l by exact H. reflexivity.
  - rewrite Nat.min_r by exact H. rewrite !firstn_all2; [reflexivity| |];
      lia.
Qed.

(** X11: a negative bound is taken as a number of files to delete.  In
    a directory of distinct names whose matching entries are regular
    files, [cleanup_old_files] with [n < 0] removes the [-n] matching
    files that were modified first (all of them when there are fewer),
    at every run. *)
Theorem negative_bound_deletes_oldest (d ext : string) (n : Z)
    (w : world) (l : list entry) :
  dirs w !! d = Some l ->
  List.NoDup (map name l) ->
  forallb is_regular (matching ext l) = true ->
  n < 0 ->
  let s := sort_by mtime (matching ext l) in
  let gone := take (Z.to_nat (- n)) s in
  dirs (snd (cleanup_old_files d ext (PInt n) w))
  = <[d := List.filter (keep_out gone) l]> (dirs w) /\
  sort_by mtime (matching ext (List.filter (keep_out gone) l))
  = drop (Z.to_nat (- n)) s.
Proof.
  intros Hd Hl Hreg Hn s gone. split.
  - rewrite (cleanup_old_files_prunes d ext n w l Hd Hl). f_equal.
    unfold prune. fold s. rewrite (regular_not_broken _ Hreg).
    assert (Hover : (n <? Z.of_nat (length s)) = true)
      by (apply Z.ltb_lt; lia).
    rewrite Hover. unfold slice_to.
    assert (Hpos : ((- n) <? 0) = false) by (apply Z.ltb_ge; lia).
    rewrite Hpos.
    replace (Z.to_nat (Z.min (- n) (Z.of_nat (length s))))
      with (Nat.min (Z.to_nat (- n)) (length s)) by lia.
    rewrite take_min. fold gone.
    rewrite remove_until_filter, removable_regular; [reflexivity|].
    eapply forallb_subset; [|exact Hreg].
    intros x Hx%In_take%sort_by_In. exact Hx.
  - rewrite matching_filter, sort_by_filter. fold s. unfold gone.
    set (k := Z.to_nat (- n)).
    rewrite <- (firstn_skipn k s) at 2.
    apply filter_keep_out_prefix. rewrite firstn_skipn.
    apply NoDup_names_sorted, Hl.
Qed.

Lemma negative_bound_deletes_oldest_witness :
  dirs (snd (cleanup_old_files "/vault" ".tar.gz" (PInt (-2)) vault))
    !! "/vault"
  = Some [Entry "notes.txt" RegFile 50; Entry "wed.tar.gz" RegFile 300].
Proof.
  destruct (negative_bound_deletes_oldest "/vault" ".tar.gz" (-2) vault
              [Entry "mon.tar.gz" RegFile 100;
               Entry "notes.txt" RegFile 50;
               Entry "wed.tar.gz" RegFile 300;
               Entry "tue.tar.gz" RegFile 200]) as (H & _).
  - reflexivity.
  - repeat (constructor; [cbn; intuition discriminate|]). constructor.
  - reflexivity.
  - lia.
  - rewrite H. rewrite lookup_insert_eq. reflexivity.
Defined.

Lemma world_eta w :
  with_logs (logs w) (with_dirs (dirs w) w) = w.
Proof. destruct w. reflexivity. Qed.

(** The deletion loop on regular files: every one is removed and
    logged, in order. *)
Lemma for_each_remove_regular d ev :
  forall lc w,
    dirs w !! d = Some lc ->
    List.NoDup (map name lc) ->
    List.NoDup (map name ev) ->
    (forall e, In e ev -> In e lc) ->
    forallb is_regular ev = true ->
    for_each (map name ev)
      (fun old_file =>
         remove d old_file ;; logger_info (MsgRemovedOld old_file)) w
    = (Ok tt,
       with_logs
         (logs w ++ map (fun e => (INFO, MsgRemovedOld (name e))) ev)
         (with_dirs (<[d := remove_until ev lc]> (dirs w)) w)).
Proof.
  induction ev as [|e ev IH]; intros lc w Hd Hlc Hev Hin Hreg.
  - cbn. rewrite app_nil_r, (insert_id _ _ _ Hd), world_eta. reflexivity.
  - cbn [map for_each remove_until forallb] in *.
    apply andb_true_iff in Hreg as [He Hreg].
    apply List.NoDup_cons_iff in Hev as [Hfresh Hev].
    pose proof (remove_In d lc e w Hd Hlc (Hin e (or_introl eq_refl)))
      as Hrm.
    assert (Hsub : is_subdir e = false)
      by (unfold is_subdir, is_regular in *; destruct (kind_of e);
          try discriminate; reflexivity).
    rewrite Hsub in *.
    erewrite bind_ok by (erewrite bind_ok by exact Hrm; reflexivity).
    rewrite (IH (drop_entry (name e) lc)).
    + cbn. rewrite insert_insert_eq, <- app_assoc. reflexivity.
    + cbn. apply lookup_insert_eq.
    + unfold drop_entry. apply NoDup_map_filter, Hlc.
    + exact Hev.
    + intros x Hx. unfold drop_entry. apply filter_In.
      split; [apply Hin; right; exact Hx|].
      apply negb_true_iff, not_true_iff_false.
      intros E%String.eqb_eq. apply Hfresh. rewrite <- E.
      apply in_map, Hx.
    + exact Hreg.
Qed.

(** X12: every deletion is logged, oldest file first.  For a bound of
    at least 1, in a directory of distinct names whose matching
    entries are regular files, [cleanup_old_files] returns normally
    and appends to the log one record per removed file, bearing its
    name, in ascending order of modification time, and nothing
    else. *)
Theorem cleanup_logs_each_deletion (d ext : string) (n : Z)
    (w : world) (l : list entry) :
  dirs w !! d = Some l ->
  List.NoDup (map name l) ->
  forallb is_regular (matching ext l) = true ->
  1 <= n ->
  let s := sort_by mtime (matching ext l) in
  let gone := take (length s - Z.to_nat n) s in
  fst (cleanup_old_files d ext (PInt n) w) = Ok tt /\
  logs (snd (cleanup_old_files d ext (PInt n) w))
  = (logs w ++ map (fun e => (INFO, MsgRemovedOld (name e))) gone)%list.
Proof.
  intros Hd Hl Hreg Hn s gone.
  split; [rewrite cleanup_old_files_returns; reflexivity|].
  unfold cleanup_old_files.
  assert (Hgone : forallb is_regular gone = true).
  { eapply forallb_subset; [|exact Hreg].
    intros x Hx%In_take%sort_by_In. exact Hx. }
  erewrite try_catch_ok.
  2: { unfold cleanup_attempt.
       erewrite bind_ok by (unfold listdir; rewrite Hd; reflexivity).
       rewrite matching_names.
       pose proof (sorted_by_mtime_entries d l (matching ext l) w Hd Hl
                     (matching_In ext l)) as Hs.
       rewrite (regular_not_broken _ Hreg) in Hs.
       erewrite bind_ok by exact Hs. fold s.
       unfold lift at 1, py_gt_int, num_of.
       rewrite Qltb_inject_Z, length_map.
       erewrite bind_ok by reflexivity.
       destruct (n <? Z.of_nat (length s)) eqn:E.
       - erewrite bind_ok by reflexivity.
         rewrite slice_to_map, slice_to_neg by lia. fold gone.
         apply for_each_remove_regular.
         + exact Hd.
         + exact Hl.
         + pose proof (NoDup_names_sorted ext l Hl) as Hnd. fold s in Hnd.
           rewrite <- (firstn_skipn (length s - Z.to_nat n) s), map_app
             in Hnd.
           exact (NoDup_app_l _ _ Hnd).
         + intros e He%In_take%sort_by_In. exact (matching_In _ _ _ He).
         + exact Hgone.
       - apply Z.ltb_ge in E.
         assert (Hnone : gone = []).
         { unfold gone. replace (length s - Z.to_nat n)%nat with 0%nat by lia.
           reflexivity. }
         rewrite Hnone. cbn [map remove_until].
         rewrite app_nil_r, (insert_id _ _ _ Hd), world_eta. reflexivity. }
  reflexivity.
Qed.

Lemma cleanup_logs_each_deletion_witness :
  logs (snd (cleanup_old_files "/vault" ".tar.gz" (PInt 1) vault))
  = [(INFO, MsgRemovedOld "mon.tar.gz"); (INFO, MsgRemovedOld "tue.tar.gz")].
Proof.
  destruct (cleanup_logs_each_deletion "/vault" ".tar.gz" 1 vault
              [Entry "mon.tar.gz" RegFile 100;
               Entry "notes.txt" RegFile 50;
               Entry "wed.tar.gz" RegFile 300;
               Entry "tue.tar.gz" RegFile 200]) as (_ & H).
  - reflexivity.
  - repeat (constructor; [cbn; intuition discriminate|]). constructor.
  - reflexivity.
  - lia.
  - rewrite H. reflexivity.
Defined.

End PruneMoreFacts.

Section StableSortFacts.
Import Py.
Context {A : Type} (key : A -> Z).

Lemma sort_by_uniform k l :
  (forall x, In x l -> key x = k) -> sort_by key l = l.
Proof.
  induction l as [|x l IH]; intros H; [reflexivity|].
  cbn [sort_by]. rewrite IH by (intros y Hy; apply H; right; exact Hy).
  apply insert_by_below. apply List.Forall_forall. intros y Hy.
  rewrite (H x (or_introl eq_refl)), (H y (or_intror Hy)). lia.
Qed.

(** X13: the order in which files are considered for deletion.
    [sorted(files, key=getmtime)] rearranges the files so that the
    keys ascend, and files bearing the same key stay in the order of
    the listing: ties are broken by listing order. *)
Theorem eviction_order_is_stable (l : list A) :
  Permutation (sort_by key l) l /\
  ascending key (sort_by key l) /\
  forall k,
    List.filter (fun x => key x =? k) (sort_by key l)
    = List.filter (fun x => key x =? k) l.
Proof.
  split; [apply sort_by_perm|]. split; [apply sort_by_ascending|].
  intros k. rewrite <- sort_by_filter. apply (sort_by_uniform k).
  intros x [_ Hx]%filter_In. apply Z.eqb_eq, Hx.
Qed.

End StableSortFacts.

(** ** The backup script: a successful run *)

Section SuccessFacts.
Import Py Backup.

















End SuccessFacts.
